(** * generate_data.py: the data-preparation pipeline of cardiac-biv-purkinje

    The script runs four file-checkpointed stages in sequence: the
    biventricular mesh, the fibre/sheet/sheet-normal fields, and one
    Purkinje tree per ventricle.  Every stage is guarded by an existence
    test on one output file.

    The embedding follows the script line by line.  The state of a run is
    the content of the file system, the state of numpy's global random
    generator and the log of library calls made so far.  The third-party
    libraries (cardiac_geometries, ldrb, dolfin, meshio, fractal_tree) are
    not part of the repository: their computations are the fields of the
    class [Libs].  The numpy array functions the script composes itself
    (subtract, linalg.norm, argmin, vstack) are written out over an
    interface [Float64] of binary64 arithmetic, instantiated below with
    Rocq's primitive floats. *)

From Stdlib Require Import ZArith QArith List String Ascii Lia Permutation.
From Stdlib Require Import Floats Uint63 Sorted.
From stdpp Require Import base option list gmap strings.

Local Open Scope Z_scope.
Local Open Scope string_scope.

(* ===================================================================== *)
(** * Python exceptions and results *)
(* ===================================================================== *)

Inductive exn : Type :=
| KeyError (key : string)
| IndexError
| AttributeError (name : string)
| ValueError (msg : string)
| ReadError (path : string)
| LibraryError (lib : string) (code : Z).

Inductive result (A : Type) : Type :=
| Ok (a : A)
| Raise (e : exn).
Arguments Ok {A} a.
Arguments Raise {A} e.

Definition rbind {A B} (r : result A) (k : A -> result B) : result B :=
  match r with
  | Ok a => k a
  | Raise e => Raise e
  end.

Declare Scope result_scope.
Delimit Scope result_scope with R.
Notation "x <- e ;; k" := (rbind e (fun x => k))
  (at level 100, e at next level, right associativity) : result_scope.

Definition is_ok {A} (r : result A) : bool :=
  match r with Ok _ => true | Raise _ => false end.

(** [xs[i]] on a Python list or a one-dimensional array. *)
Definition getitem {A} (xs : list A) (i : nat) : result A :=
  match xs !! i with
  | Some x => Ok x
  | None => Raise IndexError
  end.

(** [d[k]] on a dict with string keys. *)
Definition dict_get {A} (d : gmap string A) (k : string) : result A :=
  match d !! k with
  | Some x => Ok x
  | None => Raise (KeyError k)
  end.

(** A list comprehension whose body may raise. *)
Fixpoint mapM {A B} (f : A -> result B) (xs : list A) : result (list B) :=
  match xs with
  | [] => Ok []
  | x :: xs' =>
      (y <- f x ;;
       ys <- mapM f xs' ;;
       Ok (y :: ys))%R
  end.

(** [enumerate(xs)] *)
Fixpoint enumerate_from {A} (i : nat) (xs : list A) : list (nat * A) :=
  match xs with
  | [] => []
  | x :: xs' => (i, x) :: enumerate_from (S i) xs'
  end.
Definition enumerate {A} (xs : list A) : list (nat * A) := enumerate_from 0 xs.

(** [[i for i, x in pairs if keep(x)]] with a condition that may raise. *)
Fixpoint filter_indices {A} (keep : A -> result bool) (pairs : list (nat * A))
  : result (list nat) :=
  match pairs with
  | [] => Ok []
  | (i, x) :: rest =>
      (b <- keep x ;;
       kept <- filter_indices keep rest ;;
       Ok (if b then i :: kept else kept))%R
  end.

(* ===================================================================== *)
(** * pathlib *)
(* ===================================================================== *)

Definition path := string.

(** [Path(a) / b] *)
Definition path_join (a : path) (b : string) : path := a ++ "/" ++ b.

Definition slash : ascii := "/"%char.
Definition dot : ascii := "."%char.

Fixpoint take_until (c : ascii) (s : list ascii) : list ascii :=
  match s with
  | [] => []
  | a :: s' => if Ascii.eqb a c then [] else a :: take_until c s'
  end.

Fixpoint drop_through (c : ascii) (s : list ascii) : option (list ascii) :=
  match s with
  | [] => None
  | a :: s' => if Ascii.eqb a c then Some s' else drop_through c s'
  end.

(** [Path(p).name]: the last component. *)
Definition path_name (p : path) : string :=
  string_of_list_ascii
    (rev (take_until slash (rev (list_ascii_of_string p)))).

(** [Path(p).stem]: the last component without its last suffix; a leading
    or a trailing dot starts no suffix. *)
Definition path_stem (p : path) : string :=
  let rname := rev (list_ascii_of_string (path_name p)) in
  match take_until dot rname, drop_through dot rname with
  | _ :: _, Some (c :: before) => string_of_list_ascii (rev (c :: before))
  | _, _ => path_name p
  end.

(** [Path(p).with_suffix(suffix)] *)
Definition path_with_suffix (p : path) (suffix : string) : path :=
  let keep := (String.length p - String.length (path_name p))%nat in
  substring 0 keep p ++ path_stem p ++ suffix.

(* ===================================================================== *)
(** * numpy: binary64 scalars and the array functions the script uses *)
(* ===================================================================== *)

(** The float64 operations behind the script's numpy calls.  [f_ge x y]
    is the comparison [x >= y]; it is false as soon as one side is NaN. *)
Class Float64 (F : Type) : Type := {
  f_of_Q : Q -> F;
  f_sub : F -> F -> F;
  f_add : F -> F -> F;
  f_mul : F -> F -> F;
  f_sqrt : F -> F;
  f_ge : F -> F -> bool;
  f_isnan : F -> bool
}.

(** What the minimum search needs of the comparison: on values that are
    not NaN it is a total preorder. *)
Class Float64Order (F : Type) `{Float64 F} : Prop := {
  f_ge_total : forall x y : F,
    f_isnan x = false -> f_isnan y = false ->
    f_ge x y = true \/ f_ge y x = true;
  f_ge_trans : forall x y z : F,
    f_ge x y = true -> f_ge y z = true -> f_ge x z = true
}.

(** A two-dimensional integer array: its second dimension and its rows. *)
Record ndarray2 : Type := {
  ncols : nat;
  rows : list (list Z)
}.

(** [np.vstack(arrays)]: the [ValueError] of an empty list, and the
    [ValueError] of arrays whose second dimensions differ.  The message of
    the second one is numpy's up to [exactly]; current numpy goes on with
    the dimension and with the index and the size of the two arrays that
    disagree. *)
Definition vstack (arrays : list ndarray2) : result ndarray2 :=
  match arrays with
  | [] => Raise (ValueError "need at least one array to concatenate")
  | a :: rest =>
      if forallb (fun b => Nat.eqb (ncols b) (ncols a)) rest
      then Ok {| ncols := ncols a; rows := concat (map rows arrays) |}
      else Raise (ValueError "all the input array dimensions except for the concatenation axis must match exactly")
  end.

Section Numpy.
Context {F : Type} `{Float64 F}.

(** A row of an (n, 3) array of coordinates. *)
Definition point : Type := F * F * F.

(** [[0, 2.34484, 0.19]]: a Python list of literals, converted to float64
    when numpy receives it. *)
Definition point_of_literals (x y z : Q) : point :=
  (f_of_Q x, f_of_Q y, f_of_Q z).

Definition row_sub (v p : point) : point :=
  let '(x, y, z) := v in
  let '(a, b, c) := p in
  (f_sub x a, f_sub y b, f_sub z c).

(** [np.subtract(verts, init_node)]: the row is broadcast over the rows. *)
Definition subtract (verts : list point) (p : point) : list point :=
  map (fun v => row_sub v p) verts.

(** The 2-norm of one row: the square root of the sum of the squares. *)
Definition row_norm (d : point) : F :=
  let '(x, y, z) := d in
  f_sqrt (f_add (f_add (f_mul x x) (f_mul y y)) (f_mul z z)).

(** [np.linalg.norm(a, axis=1)] *)
Definition norm_axis1 (a : list point) : list F := map row_norm a.

(** The scan of [argmin]: [mp] is the least value so far, [min_ind] its
    index, [i] the index of the head of [xs].  A value replaces [mp] when
    [x >= mp] fails; a NaN ends the scan. *)
Fixpoint argmin_scan (mp : F) (min_ind i : nat) (xs : list F) : nat :=
  match xs with
  | [] => min_ind
  | x :: xs' =>
      if negb (f_ge x mp)
      then if f_isnan x then i else argmin_scan x i (S i) xs'
      else argmin_scan mp min_ind (S i) xs'
  end.

(** [a.argmin()] on a one-dimensional array: the index of the first
    occurrence of the minimum; an empty array raises. *)
Definition argmin (a : list F) : result nat :=
  match a with
  | [] => Raise (ValueError "attempt to get argmin of an empty sequence")
  | x :: xs => Ok (if f_isnan x then 0%nat else argmin_scan x 0 1 xs)
  end.

(** The distance the script computes between a vertex and the seed. *)
Definition distance (seed v : point) : F := row_norm (row_sub v seed).

(** Lines 105-106 and 147-148:
    [index = np.linalg.norm(np.subtract(verts, init_node), axis=1).argmin()] *)
Definition nearest_index (verts : list point) (init_node : point) : result nat :=
  argmin (norm_axis1 (subtract verts init_node)).

End Numpy.

Arguments point F : clear implicits.

(** ** The instance: IEEE 754 binary64 as Rocq's primitive floats *)

(** A decimal literal [n / 10^k] as Python reads it: the nearest float.
    Numerator and denominator are small enough to be exact, so the one
    division rounds once. *)
Definition float_of_Q (q : Q) : float :=
  let a := PrimFloat.div (PrimFloat.of_uint63 (Uint63.of_Z (Z.abs (Qnum q))))
                         (PrimFloat.of_uint63 (Uint63.of_Z (Zpos (Qden q)))) in
  if Z.ltb (Qnum q) 0 then PrimFloat.opp a else a.

#[export] Instance binary64 : Float64 float := {
  f_of_Q := float_of_Q;
  f_sub := PrimFloat.sub;
  f_add := PrimFloat.add;
  f_mul := PrimFloat.mul;
  f_sqrt := PrimFloat.sqrt;
  f_ge := fun x y => PrimFloat.leb y x;
  f_isnan := PrimFloat.is_nan
}.

(* ===================================================================== *)
(** * The objects of the libraries *)
(* ===================================================================== *)

Definition bytes : Type := list Byte.byte.

(** meshio: one block of cells of one type, [block.data] its connectivity. *)
Record CellBlock : Type := {
  cell_type : string;
  data : ndarray2
}.

Section Objects.
Context {F : Type}.

(** meshio: what [meshio.read] returns.  [cell_data[name]] holds one array
    per cell block, with one entry per cell of the block; [field_data[name]]
    is the pair (tag, dimension) of a named physical group. *)
Record Msh : Type := {
  points : list (point F);
  cells : list CellBlock;
  cell_data : gmap string (list (list Z));
  field_data : gmap string (list Z)
}.

(** fractal_tree: [Mesh(verts=..., connectivity=..., init_node=...)] *)
Record Mesh : Type := {
  verts : list (point F);
  connectivity : ndarray2;
  init_node : point F
}.

(** fractal_tree: [FractalTreeParameters(...)], the fields the script sets. *)
Record FractalTreeParameters : Type := {
  ftp_filename : path;
  ftp_init_length : F;
  ftp_N_it : Z;
  ftp_length : F;
  ftp_initial_direction : list Z
}.

End Objects.
Arguments Msh F : clear implicits.
Arguments Mesh F : clear implicits.
Arguments FractalTreeParameters F : clear implicits.

(** cardiac_geometries: the geometry read back from the folder. *)
Record Geometry (mesh_t ffun_t : Type) : Type := {
  geo_mesh : mesh_t;
  geo_ffun : ffun_t;
  geo_markers : gmap string (list Z)
}.
Arguments geo_mesh {mesh_t ffun_t} g.
Arguments geo_ffun {mesh_t ffun_t} g.
Arguments geo_markers {mesh_t ffun_t} g.

(** ldrb: the fields of the microstructure. *)
Record FiberSheetSystem (function_t : Type) : Type := {
  fiber : function_t;
  sheet : function_t;
  sheet_normal : function_t
}.
Arguments fiber {function_t} f.
Arguments sheet {function_t} f.
Arguments sheet_normal {function_t} f.

(** [getattr(system, attr)] *)
Definition getattr {function_t} (system : FiberSheetSystem function_t)
  (attr : string) : result function_t :=
  if String.eqb attr "fiber" then Ok (fiber system)
  else if String.eqb attr "sheet" then Ok (sheet system)
  else if String.eqb attr "sheet_normal" then Ok (sheet_normal system)
  else Raise (AttributeError attr).

(** The keyword arguments [ldrb.dolfin_ldrb] receives beside the mesh. *)
Record LdrbArguments : Type := {
  fiber_space : string;
  markers : list (string * Z);
  alpha_endo_lv : Z;
  alpha_epi_lv : Z;
  beta_endo_lv : Z;
  beta_epi_lv : Z
}.

(** dolfin: what one [write_checkpoint] with HDF5 encoding leaves behind,
    the XDMF file and the HDF5 file beside it, or an error and what was
    written of the two files before it. *)
Inductive checkpoint : Type :=
| Checkpoint (xdmf h5 : bytes)
| CheckpointError (e : exn) (xdmf h5 : option bytes).

(** fractal_tree: what one growth leaves behind.  With the default
    [save=True], which the script keeps, the library stores the tree as
    [<filename>.vtu] and, beside it, text files named after the same
    [filename] ([<filename>_lines.txt], [<filename>_xyz.txt],
    [<filename>_endnodes.txt]); each companion is a suffix and a content.
    An error comes with what was written before it. *)
Inductive growth : Type :=
| Grown (vtu : bytes) (companions : list (string * bytes))
| GrowthError (e : exn) (written : list (string * bytes)).

(* ===================================================================== *)
(** * The third-party libraries *)
(* ===================================================================== *)

(** What the libraries compute is not in the repository.  A call that
    works on the output directory is any function of the files and of the
    random state that may raise.  The writing of a checkpoint and the
    growth of a tree are functions of their arguments that may raise as
    well, and write files named after the path they are given only.  That
    the tree depends on the process only through numpy's random state is
    the contract the script relies on when it seeds the generator; it is
    visible in the type of [grow_tree]. *)
Class Libs (F : Type) : Type := {
  rng_state : Type;
  dolfin_mesh : Type;
  dolfin_meshfunction : Type;
  dolfin_function : Type;
  (** [np.random.seed(n)]: the state the seed determines *)
  seeded : Z -> rng_state;
  (** [cardiac_geometries.create_biv_ellipsoid(outdir, **kwargs)] *)
  lib_create_biv_ellipsoid :
    path -> list (string * F) ->
    gmap path bytes * rng_state -> result unit * (gmap path bytes * rng_state);
  (** [cardiac_geometries.geometry.Geometry.from_folder(folder)] *)
  lib_geometry_from_folder :
    path ->
    gmap path bytes * rng_state ->
    result (Geometry dolfin_mesh dolfin_meshfunction) * (gmap path bytes * rng_state);
  (** [ldrb.dolfin_ldrb(mesh=..., ffun=..., ...)] *)
  lib_dolfin_ldrb :
    dolfin_mesh -> dolfin_meshfunction -> LdrbArguments ->
    gmap path bytes * rng_state ->
    result (FiberSheetSystem dolfin_function) * (gmap path bytes * rng_state);
  (** [xdmf.write_checkpoint(f, name, 0.0, Encoding.HDF5, False)] *)
  xdmf_checkpoint : dolfin_function -> string -> checkpoint;
  (** the reader of the gmsh format *)
  msh_decode : bytes -> result (Msh F);
  (** the growth of the tree and the encodings of its files *)
  grow_tree : Mesh F -> FractalTreeParameters F -> rng_state -> growth * rng_state
}.

(** ** What the two writing calls do to the files *)

Definition checkpoint_result (c : checkpoint) : result unit :=
  match c with
  | Checkpoint _ _ => Ok tt
  | CheckpointError e _ _ => Raise e
  end.

Definition write_optional (p : path) (content : option bytes)
  (files : gmap path bytes) : gmap path bytes :=
  match content with
  | Some c => <[p := c]> files
  | None => files
  end.

(** The files after a checkpoint on [file]. *)
Definition after_checkpoint (file : path) (c : checkpoint)
  (files : gmap path bytes) : gmap path bytes :=
  match c with
  | Checkpoint xdmf h5 =>
      <[path_with_suffix file ".h5" := h5]> (<[file := xdmf]> files)
  | CheckpointError _ xdmf h5 =>
      write_optional (path_with_suffix file ".h5") h5 (write_optional file xdmf files)
  end.

Definition growth_result (g : growth) : result unit :=
  match g with
  | Grown _ _ => Ok tt
  | GrowthError e _ => Raise e
  end.

(** Files named [filename] followed by a suffix, written one after the
    other. *)
Fixpoint write_all (filename : path) (parts : list (string * bytes))
  (files : gmap path bytes) : gmap path bytes :=
  match parts with
  | [] => files
  | (suffix, content) :: parts' =>
      write_all filename parts' (<[filename ++ suffix := content]> files)
  end.

(** The files after a growth that was given [filename]. *)
Definition after_growth (filename : path) (g : growth)
  (files : gmap path bytes) : gmap path bytes :=
  match g with
  | Grown vtu companions =>
      <[filename ++ ".vtu" := vtu]> (write_all filename companions files)
  | GrowthError _ written => write_all filename written files
  end.

(* ===================================================================== *)
(** * The state of a run and the script's monad *)
(* ===================================================================== *)

Section Script.
Context {F : Type} `{Float64 F} `{Libs F}.

(** The library calls a run makes, in order, with what the script passes. *)
Inductive call : Type :=
| CallCreateBivEllipsoid (outdir : path) (kwargs : list (string * F))
| CallGeometryFromFolder (folder : path)
| CallDolfinLdrb (args : LdrbArguments)
| CallWriteCheckpoint (file : path) (name : string)
| CallMeshioRead (file : path)
| CallRandomSeed (seed : Z)
| CallGenerateFractalTree (mesh : Mesh F) (param : FractalTreeParameters F).

Record world : Type := {
  fs : gmap path bytes;
  rng : rng_state;
  calls : list call
}.

(** A statement of the script: it runs in a world, returns or raises, and
    leaves a world.  Nothing is rolled back when it raises. *)
Definition M (A : Type) : Type := world -> result A * world.

Definition ret {A} (a : A) : M A := fun w => (Ok a, w).

Definition bind {A B} (m : M A) (k : A -> M B) : M B :=
  fun w =>
    match m w with
    | (Ok a, w') => k a w'
    | (Raise e, w') => (Raise e, w')
    end.

Definition lift {A} (r : result A) : M A := fun w => (r, w).

Declare Scope script_scope.
Delimit Scope script_scope with M.
Notation "x <- e ;; k" := (bind e (fun x => k))
  (at level 100, e at next level, right associativity) : script_scope.
Notation "e ;; k" := (bind e (fun _ => k))
  (at level 100, right associativity) : script_scope.

(** [for x in xs: body(x)] *)
Fixpoint for_each {A} (xs : list A) (body : A -> M unit) : M unit :=
  match xs with
  | [] => ret tt
  | x :: xs' => (body x ;; for_each xs' body)%M
  end.

Definition log (c : call) : M unit :=
  fun w => (Ok tt, {| fs := fs w; rng := rng w; calls := calls w ++ [c] |}).

(** [Path(p).is_file()] *)
Definition is_file (p : path) : M bool :=
  fun w => (Ok (bool_decide (is_Some (fs w !! p))), w).

(** A library call that works on the files and the random state. *)
Definition external {A}
  (f : gmap path bytes * rng_state -> result A * (gmap path bytes * rng_state)) : M A :=
  fun w =>
    let '(r, (fs', rng')) := f (fs w, rng w) in
    (r, {| fs := fs'; rng := rng'; calls := calls w |}).

(** ** The library functions as the script calls them *)

Definition create_biv_ellipsoid (outdir : path) (kwargs : list (string * F)) : M unit :=
  (log (CallCreateBivEllipsoid outdir kwargs) ;;
   external (lib_create_biv_ellipsoid outdir kwargs))%M.

Definition Geometry_from_folder (folder : path)
  : M (Geometry dolfin_mesh dolfin_meshfunction) :=
  (log (CallGeometryFromFolder folder) ;;
   external (lib_geometry_from_folder folder))%M.

Definition dolfin_ldrb (mesh : dolfin_mesh) (ffun : dolfin_meshfunction)
  (args : LdrbArguments) : M (FiberSheetSystem dolfin_function) :=
  (log (CallDolfinLdrb args) ;;
   external (lib_dolfin_ldrb mesh ffun args))%M.

(** [with dolfin.XDMFFile(file) as xdmf: xdmf.write_checkpoint(f, name,
    0.0, dolfin.XDMFFile.Encoding.HDF5, False)]: a fresh XDMF file and the
    HDF5 file of the same stem beside it, unless the writing raises. *)
Definition write_checkpoint (file : path) (f : dolfin_function) (name : string) : M unit :=
  (log (CallWriteCheckpoint file name) ;;
   fun w =>
     let c := xdmf_checkpoint f name in
     (checkpoint_result c,
      {| fs := after_checkpoint file c (fs w); rng := rng w; calls := calls w |}))%M.

(** [meshio.read(file)] *)
Definition meshio_read (file : path) : M (Msh F) :=
  (log (CallMeshioRead file) ;;
   fun w =>
     match fs w !! file with
     | Some content => (msh_decode content, w)
     | None => (Raise (ReadError file), w)
     end)%M.

(** [np.random.seed(n)] *)
Definition np_random_seed (n : Z) : M unit :=
  (log (CallRandomSeed n) ;;
   fun w => (Ok tt, {| fs := fs w; rng := seeded n; calls := calls w |}))%M.

(** [generate_fractal_tree(mesh, param)]: grows the tree drawing from
    numpy's random state and saves it under [param.filename]. *)
Definition generate_fractal_tree (mesh : Mesh F) (param : FractalTreeParameters F) : M unit :=
  (log (CallGenerateFractalTree mesh param) ;;
   fun w =>
     let '(g, rng') := grow_tree mesh param (rng w) in
     (growth_result g,
      {| fs := after_growth (ftp_filename param) g (fs w);
         rng := rng'; calls := calls w |}))%M.

(* ===================================================================== *)
(** * generate_data.py *)
(* ===================================================================== *)

Definition datadir : path := "data".
Definition msh_file : path := path_join datadir "biv_ellipsoid.msh".
Definition fiber_file : path := path_join datadir "fiber.xdmf".
Definition lv_file : path := path_join datadir "lv_tree.vtu".
Definition rv_file : path := path_join datadir "rv_tree.vtu".

(** ** Create mesh (lines 21-46) *)

(** The keyword arguments of the call, in the order of the source. *)
Definition biv_ellipsoid_kwargs : list (string * F) :=
  [ ("char_length", f_of_Q 0.2);
    ("center_lv_y", f_of_Q 0.2);
    ("center_lv_z", f_of_Q 0.0);
    ("a_endo_lv", f_of_Q 5.0);
    ("b_endo_lv", f_of_Q 2.2);
    ("c_endo_lv", f_of_Q 2.2);
    ("a_epi_lv", f_of_Q 6.0);
    ("b_epi_lv", f_of_Q 3.0);
    ("c_epi_lv", f_of_Q 3.0);
    ("center_rv_y", f_of_Q 1.0);
    ("center_rv_z", f_of_Q 0.0);
    ("a_endo_rv", f_of_Q 6.0);
    ("b_endo_rv", f_of_Q 2.5);
    ("c_endo_rv", f_of_Q 2.7);
    ("a_epi_rv", f_of_Q 8.0);
    ("b_epi_rv", f_of_Q 5.5);
    ("c_epi_rv", f_of_Q 4.0) ].

Definition mesh_stage : M unit :=
  (present <- is_file msh_file ;;
   if negb present
   then create_biv_ellipsoid datadir biv_ellipsoid_kwargs
   else ret tt)%M.

(** ** Create fibers (lines 56-81) *)

(** [geo.markers[name][0]] *)
Definition marker (geo : Geometry dolfin_mesh dolfin_meshfunction) (name : string)
  : result Z :=
  (m <- dict_get (geo_markers geo) name ;; getitem m 0)%R.

Definition fiber_stage : M unit :=
  (present <- is_file fiber_file ;;
   if negb present
   then
     geo <- Geometry_from_folder datadir ;;
     base <- lift (marker geo "BASE") ;;
     lv <- lift (marker geo "ENDO_LV") ;;
     rv <- lift (marker geo "ENDO_RV") ;;
     epi <- lift (marker geo "EPI") ;;
     let ldrb_markers := [("base", base); ("lv", lv); ("rv", rv); ("epi", epi)] in
     system <- dolfin_ldrb (geo_mesh geo) (geo_ffun geo)
                 {| fiber_space := "P_1";
                    markers := ldrb_markers;
                    alpha_endo_lv := 60;
                    alpha_epi_lv := -60;
                    beta_endo_lv := 0;
                    beta_epi_lv := 0 |} ;;
     for_each ["fiber"; "sheet"; "sheet_normal"] (fun attr =>
       f <- lift (getattr system attr) ;;
       write_checkpoint (datadir ++ "/" ++ attr ++ ".xdmf") f attr)
   else ret tt)%M.

(** ** Create purkinje system (lines 89-130 for the LV, 135-163 for the RV)

    The two blocks of the script are the same statements with different
    constants: the output file, the name of the endocardial surface, the
    approximate seed coordinate, and the initial length and the number of
    iterations of the growth. *)
Inductive ventricle : Type := LV | RV.

(** [lv_file] (line 89) and [rv_file] (line 135) *)
Definition tree_file (v : ventricle) : path :=
  match v with LV => lv_file | RV => rv_file end.

(** The key of the endocardial surface in [msh.field_data] (lines 95, 140) *)
Definition endo_name (v : ventricle) : string :=
  match v with LV => "ENDO_LV" | RV => "ENDO_RV" end.

(** [init_node = [0, 2.34484, 0.19]] (line 100), [[0, 3.19, 0.19]] (line 146) *)
Definition seed_coordinate (v : ventricle) : Q * Q * Q :=
  match v with
  | LV => (0, 2.34484, 0.19)%Q
  | RV => (0, 3.19, 0.19)%Q
  end.

(** [init_length] and [N_it] (lines 123-124, 157-158) *)
Definition init_length (v : ventricle) : Q :=
  match v with LV => 7.0%Q | RV => 9.7%Q end.
Definition N_it (v : ventricle) : Z :=
  match v with LV => 12 | RV => 15 end.

(** [tag = msh.field_data[name][0]] *)
Definition endo_tag (msh : Msh F) (name : string) : result Z :=
  (entry <- dict_get (field_data msh) name ;; getitem entry 0)%R.

(** [x[0] == tag], the condition of the comprehension of lines 96 and 141 *)
Definition first_tag_is (tag : Z) (x : list Z) : result bool :=
  (x0 <- getitem x 0 ;; Ok (Z.eqb x0 tag))%R.

(** [inds = [i for i, x in enumerate(msh.cell_data["gmsh:physical"])
             if x[0] == tag]] *)
Definition tagged_blocks (msh : Msh F) (tag : Z) : result (list nat) :=
  (physical <- dict_get (cell_data msh) "gmsh:physical" ;;
   filter_indices (first_tag_is tag) (enumerate physical))%R.

(** [connectivity = np.vstack([msh.cells[i].data for i in inds])] *)
Definition stack_blocks (msh : Msh F) (inds : list nat) : result ndarray2 :=
  (blocks <- mapM (fun i => block <- getitem (cells msh) i ;; Ok (data block)) inds ;;
   vstack blocks)%R.

Definition tree_parameters (v : ventricle) : FractalTreeParameters F :=
  {| ftp_filename := path_join datadir (path_stem (tree_file v));
     ftp_init_length := f_of_Q (init_length v);
     ftp_N_it := N_it v;
     ftp_length := f_of_Q 0.5;
     ftp_initial_direction := [1; 0; 0] |}.

(** The seed coordinate as numpy reads the list of literals. *)
Definition seed_point (v : ventricle) : point F :=
  let '(x, y, z) := seed_coordinate v in point_of_literals x y z.

(** Lines 95-109 (140-149): the mesh handed to the growth, computed from
    what [meshio.read] returned. *)
Definition purkinje_mesh (v : ventricle) (msh : Msh F) : result (Mesh F) :=
  (tag <- endo_tag msh (endo_name v) ;;
   inds <- tagged_blocks msh tag ;;
   connectivity <- stack_blocks msh inds ;;
   let init_node := seed_point v in
   let verts := points msh in
   index <- nearest_index verts init_node ;;
   origin <- getitem verts index ;;
   Ok {| verts := verts; connectivity := connectivity; init_node := origin |})%R.

(** The body of the guard. *)
Definition grow_purkinje (v : ventricle) : M unit :=
  (msh <- meshio_read msh_file ;;
   mesh <- lift (purkinje_mesh v msh) ;;
   np_random_seed 1234 ;;
   let param := tree_parameters v in
   generate_fractal_tree mesh param)%M.

Definition purkinje_stage (v : ventricle) : M unit :=
  (present <- is_file (tree_file v) ;;
   if negb present then grow_purkinje v else ret tt)%M.

(** ** The script

    The four stages in the order of the file.  [logging.basicConfig]
    (line 12) touches neither the files nor the random state and has no
    counterpart here. *)

Definition generate_data : M unit :=
  (mesh_stage ;;
   fiber_stage ;;
   purkinje_stage LV ;;
   purkinje_stage RV)%M.

End Script.

(* ===================================================================== *)
(** * The vocabulary of the statements *)
(* ===================================================================== *)

Arguments call F : clear implicits.

Section Vocabulary.
Context {F : Type} `{Float64 F} `{Libs F}.

(** The cells (rows of connectivity) of the blocks whose first physical tag
    is [tag], in the order of the blocks. *)
Definition rows_of_tagged_blocks (blocks : list CellBlock) (physical : list (list Z))
  (tag : Z) : list (list Z) :=
  concat (map (fun bx : CellBlock * list Z =>
                 match head (snd bx) with
                 | Some t => if Z.eqb t tag then rows (data (fst bx)) else []
                 | None => []
                 end)
              (zip blocks physical)).

(** The cells whose own physical tag is [tag]: every cell of every block
    is paired with its entry of the block's tag array. *)
Definition cells_with_tag (blocks : list CellBlock) (physical : list (list Z))
  (tag : Z) : list (list Z) :=
  concat (map (fun bx : CellBlock * list Z =>
                 map fst (List.filter (fun ct : list Z * Z => Z.eqb (snd ct) tag)
                                      (zip (rows (data (fst bx))) (snd bx))))
              (zip blocks physical)).

(** Every block carries one tag for all its cells, one entry per cell: how
    the gmsh 4.1 reader fills [cell_data["gmsh:physical"]], one block per
    tagged entity. *)
Definition uniformly_tagged (blocks : list CellBlock) (physical : list (list Z)) : Prop :=
  Forall (fun bx : CellBlock * list Z =>
            length (snd bx) = length (rows (data (fst bx))) /\
            forall t, In t (snd bx) -> head (snd bx) = Some t)
         (zip blocks physical).

(** The files the checkpoint calls of a log wrote, in order. *)
Definition checkpoints_written (cs : list (call F)) : list path :=
  omap (fun c => match c with CallWriteCheckpoint file _ => Some file | _ => None end) cs.

(** The growths of a log, and whether each of them comes straight after
    [np.random.seed(1234)]. *)
Definition is_growth (c : call F) : bool :=
  match c with CallGenerateFractalTree _ _ => true | _ => false end.

Definition seeded_before_growth (cs : list (call F)) : Prop :=
  forall (before : list (call F)) c after,
    cs = (before ++ c :: after)%list -> is_growth c = true ->
    exists before', before = (before' ++ [CallRandomSeed 1234])%list.

(** The shape parameters among the keyword arguments of the mesh call:
    all but the characteristic length. *)
Definition shape_parameters (kwargs : list (string * F)) : list (string * F) :=
  List.filter (fun kv => negb (String.eqb (fst kv) "char_length")) kwargs.

(** What a stage leaves behind for one file: how it ended and the file. *)
Definition outcome {A} (p : path) (r : result A * world)
  : result A * option bytes :=
  (fst r, fs (snd r) !! p).

(** No distance from the seed to a vertex is NaN. *)
Definition distances_defined (seed : point F) (vs : list (point F)) : Prop :=
  Forall (fun v => f_isnan (distance seed v) = false) vs.

(** A world after more calls were logged. *)
Definition logged (w : world) (cs : list (call F)) : world :=
  {| fs := fs w; rng := rng w; calls := calls w ++ cs |}.

(** The calls of a tree stage that grows its tree from [mesh]. *)
Definition growth_calls (v : ventricle) (mesh : Mesh F) : list (call F) :=
  [ CallMeshioRead msh_file;
    CallRandomSeed 1234;
    CallGenerateFractalTree mesh (tree_parameters v) ].

(** [m], at index [k] of [a], is a first minimum of [a]: nothing in [a] is
    below it and everything before it is strictly above it. *)
Definition first_minimum (a : list F) (k : nat) (m : F) : Prop :=
  a !! k = Some m /\
  (forall j y, a !! j = Some y -> f_ge y m = true) /\
  (forall j y, (j < k)%nat -> a !! j = Some y -> f_ge m y = false).

Definition checkpoint_files : list path :=
  ["data/fiber.xdmf"; "data/sheet.xdmf"; "data/sheet_normal.xdmf"].

(** The arguments of the ldrb call for the markers read from the geometry. *)
Definition ldrb_arguments (geo : Geometry dolfin_mesh dolfin_meshfunction)
  : result LdrbArguments :=
  (base <- marker geo "BASE" ;;
   lv <- marker geo "ENDO_LV" ;;
   rv <- marker geo "ENDO_RV" ;;
   epi <- marker geo "EPI" ;;
   Ok {| fiber_space := "P_1";
         markers := [("base", base); ("lv", lv); ("rv", rv); ("epi", epi)];
         alpha_endo_lv := 60;
         alpha_epi_lv := -60;
         beta_endo_lv := 0;
         beta_epi_lv := 0 |})%R.

(** The loop of lines 78-81 on the fields of [system]. *)
Definition write_checkpoints (system : FiberSheetSystem dolfin_function) : M unit :=
  for_each ["fiber"; "sheet"; "sheet_normal"] (fun attr =>
    bind (lift (getattr system attr)) (fun f =>
      write_checkpoint (datadir ++ "/" ++ attr ++ ".xdmf") f attr)).

(** The files after the three checkpoints, fibre, sheet and sheet-normal,
    each an XDMF file [x] and an HDF5 file [h]. *)
Definition with_checkpoints (x1 h1 x2 h2 x3 h3 : bytes)
  (files : gmap path bytes) : gmap path bytes :=
  <["data/sheet_normal.h5" := h3]>
  (<["data/sheet_normal.xdmf" := x3]>
  (<["data/sheet.h5" := h2]>
  (<["data/sheet.xdmf" := x2]>
  (<["data/fiber.h5" := h1]>
  (<["data/fiber.xdmf" := x1]> files))))).

(** The path a tree stage gives to the growth: [datadir / lv_file.stem]. *)
Definition tree_stem (v : ventricle) : path := ftp_filename (tree_parameters v).

(** The Euclidean distance between the seed and a vertex in the
    arithmetic of the interface, written from its formula: the square
    root of the sum of the squares of the three coordinate differences.
    The statements about the lookup measure with it; [distance] is what
    lines 106 and 148 compute. *)
Definition euclidean_distance (seed v : point F) : F :=
  let dx := f_sub (fst (fst v)) (fst (fst seed)) in
  let dy := f_sub (snd (fst v)) (snd (fst seed)) in
  let dz := f_sub (snd v) (snd seed) in
  f_sqrt (f_add (f_add (f_mul dx dx) (f_mul dy dy)) (f_mul dz dz)).

(** No Euclidean distance from the seed to a vertex is NaN. *)
Definition no_nan_distance (seed : point F) (vs : list (point F)) : Prop :=
  Forall (fun v => f_isnan (euclidean_distance seed v) = false) vs.

(** The error of an empty selection: the first tag of no block is [tag]. *)
Definition empty_selection_error (e : exn) : Prop :=
  e = ValueError "need at least one array to concatenate" \/ e = IndexError.

(** A log without a growth. *)
Definition no_growth (cs : list (call F)) : Prop :=
  Forall (fun c => is_growth c = false) cs.

(** What a tree stage may add to the log: nothing (its tree is there), the
    reading of the mesh (it raised before the seed), or the three calls of
    a growth. *)
Definition tree_log (v : ventricle) (cs : list (call F)) : Prop :=
  cs = [] \/ cs = [CallMeshioRead msh_file] \/ exists mesh, cs = growth_calls v mesh.

(** The keys the fibre stage reads in [geo.markers], in the order it reads
    them. *)
Definition marker_names : list string := ["BASE"; "ENDO_LV"; "ENDO_RV"; "EPI"].

End Vocabulary.

(** The rational a binary64 number stands for; none for an infinity or a
    NaN. *)
Definition exact_value (x : float) : option Q :=
  match Prim2SF x with
  | S754_zero _ => Some 0%Q
  | S754_finite s m e =>
      Some ((if s then -1 else 1) * inject_Z (Zpos m) * Qpower 2 e)%Q
  | _ => None
  end.

(** The square of the Euclidean distance between two points with binary64
    coordinates, in exact arithmetic. *)
Definition exact_square_distance (seed v : point float) : option Q :=
  let '(a, b, c) := seed in
  let '(x, y, z) := v in
  match exact_value a, exact_value b, exact_value c,
        exact_value x, exact_value y, exact_value z with
  | Some a, Some b, Some c, Some x, Some y, Some z =>
      Some ((x - a) * (x - a) + (y - b) * (y - b) + (z - c) * (z - c))%Q
  | _, _, _, _, _, _ => None
  end.

(** The character [c] does not occur in [s]. *)
Definition without_char (c : ascii) (s : string) : Prop :=
  ~ In c (list_ascii_of_string s).

(* ===================================================================== *)
(** * A small instance of the libraries, to run the script on *)
(* ===================================================================== *)

(** Four vertices, two blocks of surface triangles (one per endocardium)
    and one block of tetrahedra; every block carries one tag. *)
Definition demo_msh : Msh float :=
  {| points := [ (0, 0, 0); (0, 2.25, 0.25); (0, 3.25, 0.25); (5, 0, 0) ]%float;
     cells :=
       [ {| cell_type := "triangle";
            data := {| ncols := 3; rows := [[0; 1; 3]; [1; 3; 0]] |} |};
         {| cell_type := "triangle";
            data := {| ncols := 3; rows := [[0; 2; 3]] |} |};
         {| cell_type := "tetra";
            data := {| ncols := 4; rows := [[0; 1; 2; 3]] |} |} ];
     cell_data := {[ "gmsh:physical" := [[2; 2]; [3]; [5]] ]};
     field_data :=
       <["ENDO_LV" := [2; 2]]> (<["ENDO_RV" := [3; 2]]> {[ "BASE" := [1; 2] ]}) |}.

(** The same vertices with the two endocardial triangles in one block:
    its first cell is tagged as LV endocardium, its second as RV. *)
Definition mixed_msh : Msh float :=
  {| points := points demo_msh;
     cells :=
       [ {| cell_type := "triangle";
            data := {| ncols := 3; rows := [[0; 1; 3]; [0; 2; 3]] |} |};
         {| cell_type := "tetra";
            data := {| ncols := 4; rows := [[0; 1; 2; 3]] |} |} ];
     cell_data := {[ "gmsh:physical" := [[2; 3]; [5]] ]};
     field_data := field_data demo_msh |}.

Definition demo_markers : gmap string (list Z) :=
  <["BASE" := [1; 2]]> (<["ENDO_LV" := [2; 2]]>
    (<["ENDO_RV" := [3; 2]]> {[ "EPI" := [4; 2] ]})).

Definition demo_msh_bytes : bytes := [Byte.x01].
Definition mixed_msh_bytes : bytes := [Byte.x02].

(** A library instance: the random state is an integer, a mesh file holds
    the number of one of the two meshes above, and the tree file records
    the random state the growth drew from and the size of its surface; the
    growth writes its three text files beside the tree. *)
Definition demo_libs : Libs float :=
  {| rng_state := Z;
     dolfin_mesh := unit;
     dolfin_meshfunction := unit;
     dolfin_function := string;
     seeded := fun n => n;
     lib_create_biv_ellipsoid := fun outdir _ '(files, r) =>
       (Ok tt, (<[path_join outdir "biv_ellipsoid.msh" := demo_msh_bytes]> files, r));
     lib_geometry_from_folder := fun folder '(files, r) =>
       match files !! path_join folder "biv_ellipsoid.msh" with
       | Some _ =>
           (Ok {| geo_mesh := tt; geo_ffun := tt; geo_markers := demo_markers |},
            (files, r))
       | None => (Raise (LibraryError "cardiac_geometries" 1), (files, r))
       end;
     lib_dolfin_ldrb := fun _ _ _ '(files, r) =>
       (Ok {| fiber := "f0"; sheet := "s0"; sheet_normal := "n0" |}, (files, r));
     xdmf_checkpoint := fun _ _ => Checkpoint [Byte.x3c] [Byte.x89];
     msh_decode := fun content =>
       match content with
       | [Byte.x01] => Ok demo_msh
       | [Byte.x02] => Ok mixed_msh
       | _ => Raise (ReadError "not a mesh")
       end;
     grow_tree := fun mesh _ r =>
       (Grown [ if Z.eqb r 1234 then Byte.x01 else Byte.x00;
                if Nat.eqb (length (rows (connectivity mesh))) 2 then Byte.x02 else Byte.x09 ]
              [ ("_lines.txt", [Byte.x6c]);
                ("_xyz.txt", [Byte.x78]);
                ("_endnodes.txt", [Byte.x65]) ],
        r + 1) |}.

Definition demo_world (files : gmap path bytes) : @world float demo_libs :=
  @Build_world float demo_libs files 0 [].

(** A world whose mesh file holds the mesh with the mixed block. *)
Definition mixed_world : @world float demo_libs :=
  demo_world {[ "data/biv_ellipsoid.msh" := mixed_msh_bytes ]}.

(** The mesh file alone, and the same with other files, another random
    state and earlier calls. *)
Definition mesh_only_world : @world float demo_libs :=
  demo_world {[ "data/biv_ellipsoid.msh" := demo_msh_bytes ]}.

Definition busy_world : @world float demo_libs :=
  @Build_world float demo_libs
    (<["data/biv_ellipsoid.msh" := demo_msh_bytes]> {[ "data/notes.txt" := [Byte.x41] ]})
    77 [CallRandomSeed 5].

(** The mesh and the LV tree, no RV tree. *)
Definition lv_done_world : @world float demo_libs :=
  demo_world (<["data/biv_ellipsoid.msh" := demo_msh_bytes]>
                {[ "data/lv_tree.vtu" := [Byte.x00] ]}).

(** Two vertices in the two possible orders. *)
Definition far_then_near : list (point float) :=
  [ (5, 0, 0); (0, 2.25, 0.25) ]%float.
Definition near_then_far : list (point float) :=
  [ (0, 2.25, 0.25); (5, 0, 0) ]%float.

(** Two vertices at distance one from the LV seed along the first axis;
    the first one is [2^-30] higher than the seed as well. *)
Definition tied_vertices : list (point float) :=
  [ (1, float_of_Q 2.34484, PrimFloat.add (float_of_Q 0.19) 0x1p-30);
    (1, float_of_Q 2.34484, float_of_Q 0.19) ]%float.

(** The mesh the LV stage builds from [demo_msh], and from [mixed_msh]. *)
Definition demo_lv_mesh : Mesh float :=
  {| verts := points demo_msh;
     connectivity := {| ncols := 3; rows := [[0; 1; 3]; [1; 3; 0]] |};
     init_node := (0, 2.25, 0.25)%float |}.

Definition mixed_lv_mesh : Mesh float :=
  {| verts := points mixed_msh;
     connectivity := {| ncols := 3; rows := [[0; 1; 3]; [0; 2; 3]] |};
     init_node := (0, 2.25, 0.25)%float |}.

(** A mesh file the reader refuses, beside the fibre file. *)
Definition broken_mesh_world : @world float demo_libs :=
  demo_world (<["data/biv_ellipsoid.msh" := [Byte.x07]]>
                {[ "data/fiber.xdmf" := [Byte.x3c] ]}).

(** Meshes at the edges: one without the physical group of the RV
    endocardium, one without vertices, one whose LV endocardium has a block
    of lines and a block of triangles. *)
Definition untagged_msh : Msh float :=
  {| points := points demo_msh;
     cells := cells demo_msh;
     cell_data := cell_data demo_msh;
     field_data := {[ "ENDO_LV" := [2; 2] ]} |}.

Definition empty_msh : Msh float :=
  {| points := [];
     cells := cells demo_msh;
     cell_data := cell_data demo_msh;
     field_data := field_data demo_msh |}.

Definition two_types_msh : Msh float :=
  {| points := points demo_msh;
     cells :=
       [ {| cell_type := "line"; data := {| ncols := 2; rows := [[0; 1]] |} |};
         {| cell_type := "triangle"; data := {| ncols := 3; rows := [[0; 1; 3]] |} |} ];
     cell_data := {[ "gmsh:physical" := [[2]; [2]] ]};
     field_data := field_data demo_msh |}.

(** A second library instance: its reader knows the three meshes above and
    its geometry comes without the marker of the epicardium. *)
Definition edge_libs : Libs float :=
  {| rng_state := Z;
     dolfin_mesh := unit;
     dolfin_meshfunction := unit;
     dolfin_function := string;
     seeded := fun n => n;
     lib_create_biv_ellipsoid := fun _ _ '(files, r) => (Ok tt, (files, r));
     lib_geometry_from_folder := fun _ '(files, r) =>
       (Ok {| geo_mesh := tt; geo_ffun := tt;
              geo_markers := delete "EPI" demo_markers |},
        (files, r));
     lib_dolfin_ldrb := fun _ _ _ '(files, r) =>
       (Ok {| fiber := "f0"; sheet := "s0"; sheet_normal := "n0" |}, (files, r));
     xdmf_checkpoint := fun _ _ => Checkpoint [Byte.x3c] [Byte.x89];
     msh_decode := fun content =>
       match content with
       | [Byte.x03] => Ok untagged_msh
       | [Byte.x04] => Ok empty_msh
       | [Byte.x05] => Ok two_types_msh
       | _ => Raise (ReadError "not a mesh")
       end;
     grow_tree := fun _ _ r => (Grown [Byte.x01] [], r + 1) |}.

Definition edge_world (files : gmap path bytes) : @world float edge_libs :=
  @Build_world float edge_libs files 0 [].

(** Vertices around one whose first coordinate is NaN. *)
Definition vertices_with_nan : list (point float) :=
  [ (5, 0, 0); (PrimFloat.div 0 0, 0, 0); (0, 2.25, 0.25) ]%float.

(** The mesh file and the fibre file, no tree. *)
Definition trees_missing_world : @world float demo_libs :=
  demo_world (<["data/biv_ellipsoid.msh" := demo_msh_bytes]>
                {[ "data/fiber.xdmf" := [Byte.x3c] ]}).

(** All outputs present. *)
Definition complete_files : gmap path bytes :=
  <["data/biv_ellipsoid.msh" := demo_msh_bytes]>
    (<["data/fiber.xdmf" := [Byte.x3c]]>
      (<["data/sheet.xdmf" := [Byte.x3c]]>
        (<["data/sheet_normal.xdmf" := [Byte.x3c]]>
          (<["data/lv_tree.vtu" := [Byte.x01; Byte.x02]]>
            {[ "data/rv_tree.vtu" := [Byte.x01; Byte.x09] ]})))).


(* ===================================================================== *)
(** * The guards and the body of a tree stage *)
(* ===================================================================== *)

Local Open Scope list_scope.

Section Stages.
Context {F : Type} `{Float64 F} `{Libs F}.

Lemma tree_output_path v :
  (tree_stem v ++ ".vtu")%string = tree_file v.
Proof. destruct v; reflexivity. Qed.

Lemma prefix_of_append (a b : string) : String.prefix a (a ++ b)%string = true.
Proof.
  induction a as [|c a IH]; [by destruct b |].
  change (String.prefix (String c a) (String c (a ++ b)%string) = true).
  cbn [String.prefix]. by destruct (ascii_dec c c).
Qed.

(** The writing calls touch files named after the path they are given. *)
Lemma write_all_frame filename parts files (p : path) :
  String.prefix filename p = false ->
  write_all filename parts files !! p = files !! p.
Proof.
  intros Hp. revert files.
  induction parts as [|[suffix content] parts IH]; intros files; [done |].
  cbn [write_all]. rewrite IH. apply lookup_insert_ne.
  intros <-. by rewrite prefix_of_append in Hp.
Qed.

Lemma after_growth_frame filename g files (p : path) :
  String.prefix filename p = false ->
  after_growth filename g files !! p = files !! p.
Proof.
  intros Hp. destruct g as [vtu companions | e written]; cbn [after_growth].
  - rewrite lookup_insert_ne by (intros <-; by rewrite prefix_of_append in Hp).
    by apply write_all_frame.
  - by apply write_all_frame.
Qed.

Lemma write_all_lookup_ext filename parts files1 files2 (p : path) :
  files1 !! p = files2 !! p ->
  write_all filename parts files1 !! p = write_all filename parts files2 !! p.
Proof.
  revert files1 files2.
  induction parts as [|[suffix content] parts IH]; intros files1 files2 Hp; [done |].
  cbn [write_all]. apply IH.
  destruct (decide ((filename ++ suffix)%string = p)) as [<- | Hne].
  - by rewrite !lookup_insert_eq.
  - by rewrite !lookup_insert_ne.
Qed.

(** What a growth leaves under a path depends on the file that was there
    only. *)
Lemma after_growth_lookup_ext filename g files1 files2 (p : path) :
  files1 !! p = files2 !! p ->
  after_growth filename g files1 !! p = after_growth filename g files2 !! p.
Proof.
  intros Hp. destruct g as [vtu companions | e written]; cbn [after_growth].
  - destruct (decide ((filename ++ ".vtu")%string = p)) as [<- | Hne].
    + by rewrite !lookup_insert_eq.
    + rewrite !lookup_insert_ne by done. by apply write_all_lookup_ext.
  - by apply write_all_lookup_ext.
Qed.

Lemma mesh_stage_skip w :
  is_Some (fs w !! msh_file) -> mesh_stage w = (Ok tt, w).
Proof.
  intros Hf. unfold mesh_stage, bind, is_file.
  by rewrite bool_decide_eq_true_2.
Qed.

Lemma fiber_stage_skip w :
  is_Some (fs w !! fiber_file) -> fiber_stage w = (Ok tt, w).
Proof.
  intros Hf. unfold fiber_stage, bind, is_file.
  by rewrite bool_decide_eq_true_2.
Qed.

Lemma purkinje_stage_skip v w :
  is_Some (fs w !! tree_file v) -> purkinje_stage v w = (Ok tt, w).
Proof.
  intros Hf. unfold purkinje_stage, bind, is_file.
  by rewrite bool_decide_eq_true_2.
Qed.

Lemma purkinje_stage_run v w :
  fs w !! tree_file v = None -> purkinje_stage v w = grow_purkinje v w.
Proof.
  intros Hf. unfold purkinje_stage, bind, is_file.
  rewrite bool_decide_eq_false_2; [done |].
  rewrite Hf. by intros [? ?].
Qed.

(** The body of the guard, statement by statement: what it returns, which
    calls it logs, and what the growth leaves in the files. *)
Lemma grow_purkinje_eq v w :
  grow_purkinje v w =
  match fs w !! msh_file with
  | None => (Raise (ReadError msh_file), logged w [CallMeshioRead msh_file])
  | Some content =>
      match (msh <- msh_decode content ;; purkinje_mesh v msh)%R with
      | Raise e => (Raise e, logged w [CallMeshioRead msh_file])
      | Ok mesh =>
          (growth_result (fst (grow_tree mesh (tree_parameters v) (seeded 1234))),
           {| fs := after_growth (tree_stem v)
                      (fst (grow_tree mesh (tree_parameters v) (seeded 1234))) (fs w);
              rng := snd (grow_tree mesh (tree_parameters v) (seeded 1234));
              calls := calls w ++ growth_calls v mesh |})
      end
  end.
Proof.
  unfold grow_purkinje, meshio_read, bind, log, lift, logged; cbn [fs rng calls].
  destruct (fs w !! msh_file) as [content|]; [|done].
  destruct (msh_decode content) as [msh|e]; cbn [rbind]; [|done].
  destruct (purkinje_mesh v msh) as [mesh|e]; [|done].
  unfold np_random_seed, generate_fractal_tree, bind, log; cbn [fs rng calls].
  rewrite <- !app_assoc; cbn [app]. unfold tree_stem.
  by destruct (grow_tree mesh (tree_parameters v) (seeded 1234)) as [g rng'].
Qed.

End Stages.

(* ===================================================================== *)
(** * The comparison of binary64 is a total preorder away from NaN *)
(* ===================================================================== *)

Ltac sf_signs :=
  repeat match goal with s : bool |- _ => destruct s end;
  simpl in *; try congruence; auto.

Ltac sf_compare :=
  repeat match goal with
  | Hc : context [Z.compare ?a ?b] |- _ => destruct (Z.compare_spec a b); simpl in Hc
  | |- context [Z.compare ?a ?b] => destruct (Z.compare_spec a b); simpl
  | Hc : context [Pos.compare ?a ?b] |- _ => destruct (Pos.compare_spec a b); simpl in Hc
  | |- context [Pos.compare ?a ?b] => destruct (Pos.compare_spec a b); simpl
  end;
  subst; try congruence; try lia; auto.

Lemma SFleb_total (x y : spec_float) :
  SFeqb x x = true -> SFeqb y y = true ->
  SFleb x y = true \/ SFleb y x = true.
Proof.
  unfold SFeqb, SFleb.
  destruct x as [sx|sx| |sx mx ex], y as [sy|sy| |sy my ey];
    simpl; intros Hx Hy; try discriminate;
    sf_signs; change (Pos.compare_cont Eq) with Pos.compare; sf_compare.
Qed.

Lemma SFleb_trans (x y z : spec_float) :
  SFleb x y = true -> SFleb y z = true -> SFleb x z = true.
Proof.
  unfold SFleb.
  destruct x as [sx|sx| |sx mx ex], y as [sy|sy| |sy my ey], z as [sz|sz| |sz mz ez];
    simpl; intros Hxy Hyz; sf_signs;
    change (Pos.compare_cont Eq) with Pos.compare in *; sf_compare.
Qed.

Lemma is_nan_false_SFeqb (x : float) :
  PrimFloat.is_nan x = false -> SFeqb (Prim2SF x) (Prim2SF x) = true.
Proof.
  unfold PrimFloat.is_nan. rewrite FloatAxioms.eqb_spec.
  by destruct (SFeqb (Prim2SF x) (Prim2SF x)).
Qed.

Lemma binary64_order : Float64Order float.
Proof.
  split; simpl.
  - intros x y Hx Hy. rewrite !FloatAxioms.leb_spec.
    destruct (SFleb_total (Prim2SF x) (Prim2SF y)); auto using is_nan_false_SFeqb.
  - intros x y z Hxy Hyz. rewrite FloatAxioms.leb_spec in *.
    eapply SFleb_trans; eauto.
Qed.

#[export] Existing Instance binary64_order.

(* ===================================================================== *)
(** * The minimum search *)
(* ===================================================================== *)

Section Argmin.
Context {F : Type} `{Float64Order F}.

Lemma f_ge_refl (x : F) : f_isnan x = false -> f_ge x x = true.
Proof. intros Hx. by destruct (f_ge_total x x Hx Hx). Qed.

Lemma f_ge_false_flip (x y : F) :
  f_isnan x = false -> f_isnan y = false -> f_ge x y = false -> f_ge y x = true.
Proof. intros Hx Hy Hxy. destruct (f_ge_total x y Hx Hy); congruence. Qed.

Lemma argmin_scan_first_minimum (xs done_ : list F) (mp : F) (k : nat) :
  Forall (fun x => f_isnan x = false) xs ->
  f_isnan mp = false ->
  first_minimum done_ k mp ->
  exists m, first_minimum (done_ ++ xs) (argmin_scan mp k (length done_) xs) m.
Proof.
  revert done_ mp k.
  induction xs as [|x xs IH]; intros done_ mp k Hxs Hmp (Hk & Hmin & Hfirst).
  - exists mp. rewrite app_nil_r. by repeat split.
  - apply Forall_cons in Hxs as [Hx Hxs]. simpl.
    replace (done_ ++ x :: xs) with ((done_ ++ [x]) ++ xs)
      by (by rewrite <- app_assoc).
    replace (S (length done_)) with (length (done_ ++ [x]))
      by (rewrite length_app; simpl; lia).
    destruct (f_ge x mp) eqn:Hge; simpl.
    + apply IH; [done | done |]. repeat split.
      * by apply lookup_app_l_Some.
      * intros j y Hj. apply lookup_app_Some in Hj as [Hj | [_ Hj]]; [by eauto |].
        apply list_lookup_singleton_Some in Hj as [_ <-]. done.
      * intros j y Hlt Hj. apply (Hfirst j y Hlt).
        apply lookup_lt_Some in Hk.
        rewrite lookup_app_l in Hj; [done | lia].
    + rewrite Hx. apply IH; [done | done |].
      pose proof (f_ge_false_flip x mp Hx Hmp Hge) as Hflip.
      repeat split.
      * rewrite lookup_app_r by lia. by rewrite Nat.sub_diag.
      * intros j y Hj. apply lookup_app_Some in Hj as [Hj | [_ Hj]].
        -- eapply f_ge_trans; [by eapply Hmin | done].
        -- apply list_lookup_singleton_Some in Hj as [_ <-]. by apply f_ge_refl.
      * intros j y Hlt Hj. rewrite lookup_app_l in Hj by done.
        destruct (f_ge x y) eqn:Hxy; [|done].
        rewrite (f_ge_trans x y mp Hxy (Hmin j y Hj)) in Hge. done.
Qed.

(** On an array without NaN [argmin] returns the index of a first minimum;
    it raises on the empty array only. *)
Lemma argmin_first_minimum (a : list F) :
  a <> [] ->
  Forall (fun x => f_isnan x = false) a ->
  exists k m, argmin a = Ok k /\ first_minimum a k m.
Proof.
  destruct a as [|x xs]; [done |]. intros _ Ha.
  apply Forall_cons in Ha as [Hx Hxs]. simpl. rewrite Hx.
  destruct (argmin_scan_first_minimum xs [x] x 0 Hxs Hx) as [m Hm].
  - repeat split; [| lia].
    intros [|j] y Hj; simpl in Hj; [|by destruct j].
    injection Hj as <-. by apply f_ge_refl.
  - exists (argmin_scan x 0 1 xs), m. split; [done | exact Hm].
Qed.

End Argmin.

(* ===================================================================== *)
(** * The checkpoints: what a run skips and what it leaves alone *)
(* ===================================================================== *)

Section Checkpoints.
Context {F : Type} `{Float64 F} `{Libs F}.

(** A tree stage changes no file but those named after the path it gives
    to the growth, however it ends. *)
Lemma purkinje_stage_frame v w (p : path) :
  String.prefix (tree_stem v) p = false ->
  fs (snd (purkinje_stage v w)) !! p = fs w !! p.
Proof.
  intros Hp. unfold purkinje_stage, bind, is_file.
  destruct (bool_decide (is_Some (fs w !! tree_file v))); [done |].
  cbn [negb]. rewrite grow_purkinje_eq.
  destruct (fs w !! msh_file) as [content|]; [|done].
  destruct (msh <- msh_decode content ;; purkinje_mesh v msh)%R as [mesh|e]; [|done].
  cbn [snd fs]. by apply after_growth_frame.
Qed.

(** How a tree stage that runs ends, and its tree file, are a function of
    the content of the mesh file alone. *)
Lemma purkinje_stage_outcome v w1 w2 :
  fs w1 !! tree_file v = None ->
  fs w2 !! tree_file v = None ->
  fs w1 !! msh_file = fs w2 !! msh_file ->
  outcome (tree_file v) (purkinje_stage v w1) =
  outcome (tree_file v) (purkinje_stage v w2).
Proof.
  intros H1 H2 Hm.
  rewrite !purkinje_stage_run, !grow_purkinje_eq by done. rewrite Hm.
  unfold outcome.
  destruct (fs w2 !! msh_file) as [content|]; cbn [fst snd fs logged];
    [| by rewrite H1, H2].
  destruct (msh <- msh_decode content ;; purkinje_mesh v msh)%R as [mesh|e];
    cbn [fst snd fs logged]; [| by rewrite H1, H2].
  f_equal. apply after_growth_lookup_ext. by rewrite H1, H2.
Qed.

(** The calls a tree stage that runs adds to the log. *)
Lemma purkinje_stage_calls v w :
  fs w !! tree_file v = None ->
  exists new,
    calls (snd (purkinje_stage v w)) = calls w ++ new /\
    (new = [CallMeshioRead msh_file] \/
     exists content mesh,
       fs w !! msh_file = Some content /\
       (msh <- msh_decode content ;; purkinje_mesh v msh)%R = Ok mesh /\
       new = growth_calls v mesh).
Proof.
  intros Hf. rewrite purkinje_stage_run, grow_purkinje_eq by done.
  destruct (fs w !! msh_file) as [content|]; [| by eauto].
  destruct (msh <- msh_decode content ;; purkinje_mesh v msh)%R as [mesh|e] eqn:Hmesh;
    [| by eauto].
  exists (growth_calls v mesh). split; [done | by eauto 6].
Qed.

Lemma growth_calls_seeded v mesh : seeded_before_growth (growth_calls v mesh).
Proof.
  intros before c after Heq Hc. unfold growth_calls in Heq.
  destruct before as [|c0 [|c1 [|c2 before]]]; simplify_eq/=.
  - by exists [CallMeshioRead msh_file].
  - by destruct before.
Qed.

Lemma read_call_seeded : seeded_before_growth [CallMeshioRead msh_file : call F].
Proof.
  intros before c after Heq Hc.
  destruct before as [|c0 before]; simplify_eq/=.
  by destruct before.
Qed.

Lemma growth_calls_grow v mesh : ~ no_growth (growth_calls v mesh).
Proof.
  unfold no_growth, growth_calls. intros Hn.
  apply Forall_cons in Hn as [_ Hn]. apply Forall_cons in Hn as [_ Hn].
  by apply Forall_cons in Hn as [Hn _].
Qed.

(** A tree stage that runs through the growth: its calls, how it ends and
    the files it leaves are those of the growth from the state the seed
    1234 sets. *)
Lemma purkinje_stage_grows v w content msh mesh :
  fs w !! tree_file v = None ->
  fs w !! msh_file = Some content ->
  msh_decode content = Ok msh ->
  purkinje_mesh v msh = Ok mesh ->
  purkinje_stage v w =
    (growth_result (fst (grow_tree mesh (tree_parameters v) (seeded 1234))),
     {| fs := after_growth (tree_stem v)
                (fst (grow_tree mesh (tree_parameters v) (seeded 1234))) (fs w);
        rng := snd (grow_tree mesh (tree_parameters v) (seeded 1234));
        calls := calls w ++ growth_calls v mesh |}).
Proof.
  intros Hf Hc Hdec Hmesh.
  rewrite purkinje_stage_run, grow_purkinje_eq by done.
  rewrite Hc, Hdec. cbn [rbind]. by rewrite Hmesh.
Qed.

(** A tree stage that logged no growth left the files as they were. *)
Lemma stage_without_growth v w new :
  calls (snd (purkinje_stage v w)) = calls w ++ new ->
  no_growth new ->
  fs (snd (purkinje_stage v w)) = fs w.
Proof.
  intros Hcalls Hnew.
  destruct (fs w !! tree_file v) as [tree|] eqn:Hf.
  - rewrite purkinje_stage_skip by (by eexists). done.
  - destruct (purkinje_stage_calls v w Hf) as (new' & Hnew' & Hcases).
    rewrite Hnew' in Hcalls. apply app_inv_head in Hcalls as ->.
    destruct Hcases as [-> | (content & mesh & Hc & Hmesh & ->)].
    + rewrite purkinje_stage_run, grow_purkinje_eq in Hnew' |- * by done.
      destruct (fs w !! msh_file) as [content|]; [| done].
      destruct (msh <- msh_decode content ;; purkinje_mesh v msh)%R as [mesh|e];
        [| done].
      cbn [snd calls] in Hnew'. apply app_inv_head in Hnew'. done.
    + by destruct (growth_calls_grow v mesh).
Qed.

(** The only statement of a tree stage that writes is the growth.  A stage
    that logged no growth (its tree was there, or it raised before the
    growth) left the files as they were: the script writes nothing of its
    own and cleans nothing up.  And the growth, whether it returns or
    raises, writes files named after the path the stage gave it, so every
    other file is as it was. *)
Theorem tree_stage_writes_in_growth_only (v : ventricle) (w : world) :
  (forall new,
     calls (snd (purkinje_stage v w)) = calls w ++ new ->
     no_growth new ->
     fs (snd (purkinje_stage v w)) = fs w) /\
  (forall p : path,
     String.prefix (tree_stem v) p = false ->
     fs (snd (purkinje_stage v w)) !! p = fs w !! p).
Proof.
  split; [apply stage_without_growth | intros p; apply purkinje_stage_frame].
Qed.

(** An error in the LV stage ends the run: the RV stage is not entered,
    whether or not its tree is missing. *)
Theorem failed_lv_stage_ends_the_run (w w' : world) (e : exn) :
  is_Some (fs w !! msh_file) ->
  is_Some (fs w !! fiber_file) ->
  purkinje_stage LV w = (Raise e, w') ->
  generate_data w = (Raise e, w').
Proof.
  intros Hmsh Hfiber Hlv. unfold generate_data, bind.
  rewrite mesh_stage_skip, fiber_stage_skip by done.
  by rewrite Hlv.
Qed.

(** C1. When the four checkpoint files [data/biv_ellipsoid.msh],
    [data/fiber.xdmf], [data/lv_tree.vtu] and [data/rv_tree.vtu] exist, the
    script returns without a single library call (the log of calls is the
    one it started with: no mesh generation, no ldrb computation, no tree
    growth) and every file is what it was (the file system is unchanged). *)
Theorem rerun_with_all_outputs_is_noop (w : world) :
  is_Some (fs w !! msh_file) ->
  is_Some (fs w !! fiber_file) ->
  is_Some (fs w !! lv_file) ->
  is_Some (fs w !! rv_file) ->
  fst (generate_data w) = Ok tt /\
  calls (snd (generate_data w)) = calls w /\
  fs (snd (generate_data w)) = fs w.
Proof.
  intros Hmsh Hfiber Hlv Hrv.
  assert (generate_data w = (Ok tt, w)) as ->; [| done].
  unfold generate_data, bind.
  rewrite mesh_stage_skip, fiber_stage_skip by done.
  by rewrite (purkinje_stage_skip LV), (purkinje_stage_skip RV).
Qed.


(** C2.  Two runs of a tree stage that find the same mesh file (and no tree
    file yet) make the same library calls, with [np.random.seed(1234)]
    right before the growth, end the same way and leave the same tree
    file, byte for byte, whatever else differs between the two worlds:
    other files, the random state, the calls made before.  And whenever
    the mesh file decodes and the surface is built from it, the stage does
    read the mesh, seed 1234 and grow the tree, in this order, and the tree
    file it leaves is the one the growth produces from the state the seed
    1234 sets; an error of the growth is the error of the stage. *)
Theorem tree_stage_reproducible (v : ventricle) (w1 w2 : world) :
  fs w1 !! tree_file v = None ->
  fs w2 !! tree_file v = None ->
  fs w1 !! msh_file = fs w2 !! msh_file ->
  (exists new,
     calls (snd (purkinje_stage v w1)) = calls w1 ++ new /\
     calls (snd (purkinje_stage v w2)) = calls w2 ++ new /\
     seeded_before_growth new) /\
  outcome (tree_file v) (purkinje_stage v w1) =
  outcome (tree_file v) (purkinje_stage v w2) /\
  (forall content msh mesh,
     fs w1 !! msh_file = Some content ->
     msh_decode content = Ok msh ->
     purkinje_mesh v msh = Ok mesh ->
     calls (snd (purkinje_stage v w1)) = calls w1 ++ growth_calls v mesh /\
     calls (snd (purkinje_stage v w2)) = calls w2 ++ growth_calls v mesh /\
     rng (snd (purkinje_stage v w1)) = rng (snd (purkinje_stage v w2)) /\
     match fst (grow_tree mesh (tree_parameters v) (seeded 1234)) with
     | Grown vtu _ =>
         fst (purkinje_stage v w1) = Ok tt /\
         fs (snd (purkinje_stage v w1)) !! tree_file v = Some vtu /\
         fs (snd (purkinje_stage v w2)) !! tree_file v = Some vtu
     | GrowthError e _ =>
         fst (purkinje_stage v w1) = Raise e /\
         fst (purkinje_stage v w2) = Raise e
     end).
Proof.
  intros H1 H2 Hm.
  split; [| split; [by apply purkinje_stage_outcome |]].
  - rewrite !purkinje_stage_run, !grow_purkinje_eq by done. rewrite Hm.
    destruct (fs w2 !! msh_file) as [content|];
      [| exists [CallMeshioRead msh_file]; eauto using read_call_seeded].
    destruct (msh <- msh_decode content ;; purkinje_mesh v msh)%R as [mesh|e];
      [| exists [CallMeshioRead msh_file]; eauto using read_call_seeded].
    exists (growth_calls v mesh). eauto using growth_calls_seeded.
  - intros content msh mesh Hc Hdec Hmesh.
    rewrite (purkinje_stage_grows v w1 content msh mesh) by done.
    rewrite (purkinje_stage_grows v w2 content msh mesh) by (by rewrite <- ?Hm).
    cbn [fst snd fs calls rng]. do 3 (split; [done |]).
    destruct (fst (grow_tree mesh (tree_parameters v) (seeded 1234)))
      as [vtu companions | e written]; [| done].
    cbn [after_growth growth_result]. rewrite (tree_output_path v).
    by rewrite !lookup_insert_eq.
Qed.

(** C10. The RV stage gives the same result and the same [data/rv_tree.vtu]
    in a run whose LV stage executed (the LV tree was missing and was
    grown) and in a run whose LV stage was skipped (the LV tree was there),
    provided the two runs find the same mesh file: the RV stage reads the
    mesh from disk again and reseeds the generator. *)
Theorem rv_tree_independent_of_lv_stage (w w' : world) :
  fs w !! lv_file = None ->
  fst (purkinje_stage LV w) = Ok tt ->
  is_Some (fs w' !! lv_file) ->
  fs w !! msh_file = fs w' !! msh_file ->
  fs w !! rv_file = None ->
  fs w' !! rv_file = None ->
  outcome rv_file (bind (purkinje_stage LV) (fun _ => purkinje_stage RV) w) =
  outcome rv_file (bind (purkinje_stage LV) (fun _ => purkinje_stage RV) w').
Proof.
  intros Hlv Hok Hlv' Hm Hrv Hrv'. unfold bind.
  rewrite (purkinje_stage_skip LV w') by done.
  pose proof (purkinje_stage_frame LV w rv_file) as Hfr.
  pose proof (purkinje_stage_frame LV w msh_file) as Hfm.
  destruct (purkinje_stage LV w) as [[[]|e] wl]; [| done].
  cbn [snd] in Hfr, Hfm.
  apply (purkinje_stage_outcome RV); cbn [tree_file].
  - by rewrite Hfr.
  - done.
  - by rewrite Hfm.
Qed.

End Checkpoints.

(* ===================================================================== *)
(** * The mesh stage and the fibre stage *)
(* ===================================================================== *)

Section MeshAndFibers.
Context {F : Type} `{Float64 F} `{Libs F}.

(** The loop of lines 78-81, checkpoint by checkpoint: it stops at the
    first one that raises. *)
Lemma write_checkpoints_run system w :
  write_checkpoints system w =
  let c1 := xdmf_checkpoint (fiber system) "fiber" in
  let c2 := xdmf_checkpoint (sheet system) "sheet" in
  let c3 := xdmf_checkpoint (sheet_normal system) "sheet_normal" in
  let files1 := after_checkpoint "data/fiber.xdmf" c1 (fs w) in
  let files2 := after_checkpoint "data/sheet.xdmf" c2 files1 in
  let files3 := after_checkpoint "data/sheet_normal.xdmf" c3 files2 in
  match checkpoint_result c1 with
  | Raise e =>
      (Raise e, {| fs := files1; rng := rng w;
                   calls := calls w ++ [CallWriteCheckpoint "data/fiber.xdmf" "fiber"] |})
  | Ok _ =>
      match checkpoint_result c2 with
      | Raise e =>
          (Raise e, {| fs := files2; rng := rng w;
                       calls := calls w ++
                         [CallWriteCheckpoint "data/fiber.xdmf" "fiber";
                          CallWriteCheckpoint "data/sheet.xdmf" "sheet"] |})
      | Ok _ =>
          (checkpoint_result c3,
           {| fs := files3; rng := rng w;
              calls := calls w ++
                [CallWriteCheckpoint "data/fiber.xdmf" "fiber";
                 CallWriteCheckpoint "data/sheet.xdmf" "sheet";
                 CallWriteCheckpoint "data/sheet_normal.xdmf" "sheet_normal"] |})
      end
  end.
Proof.
  unfold write_checkpoints. cbn [for_each].
  unfold bind, lift, ret, write_checkpoint, bind, log.
  cbn [getattr String.eqb Ascii.eqb Bool.eqb fs rng calls]. cbv zeta.
  destruct (checkpoint_result (xdmf_checkpoint (fiber system) "fiber")); [| done].
  destruct (checkpoint_result (xdmf_checkpoint (sheet system) "sheet"));
    [| by rewrite <- !app_assoc].
  rewrite <- !app_assoc.
  by destruct (checkpoint_result (xdmf_checkpoint (sheet_normal system) "sheet_normal"))
    as [[]|e].
Qed.

(** The fibre stage when [data/fiber.xdmf] is missing, statement by
    statement. *)
Lemma fiber_stage_run w :
  fs w !! fiber_file = None ->
  fiber_stage w =
  match lib_geometry_from_folder datadir (fs w, rng w) with
  | (Raise e, (files, r)) =>
      (Raise e, {| fs := files; rng := r;
                   calls := calls w ++ [CallGeometryFromFolder datadir] |})
  | (Ok geo, (files, r)) =>
      match ldrb_arguments geo with
      | Raise e =>
          (Raise e, {| fs := files; rng := r;
                       calls := calls w ++ [CallGeometryFromFolder datadir] |})
      | Ok args =>
          match lib_dolfin_ldrb (geo_mesh geo) (geo_ffun geo) args (files, r) with
          | (Raise e, (files', r')) =>
              (Raise e, {| fs := files'; rng := r';
                           calls := calls w ++ [CallGeometryFromFolder datadir;
                                                CallDolfinLdrb args] |})
          | (Ok system, (files', r')) =>
              write_checkpoints system
                {| fs := files'; rng := r';
                   calls := calls w ++ [CallGeometryFromFolder datadir;
                                        CallDolfinLdrb args] |}
          end
      end
  end.
Proof.
  intros Hf.
  unfold fiber_stage, Geometry_from_folder, dolfin_ldrb, ldrb_arguments,
    bind, is_file, log, external, lift.
  rewrite bool_decide_eq_false_2 by (rewrite Hf; by intros [? ?]).
  cbn [negb fs rng calls].
  destruct (lib_geometry_from_folder datadir (fs w, rng w))
    as [[geo|e] [files r]]; [| done].
  destruct (marker geo "BASE") as [base|e]; [| done].
  destruct (marker geo "ENDO_LV") as [lv|e]; [| done].
  destruct (marker geo "ENDO_RV") as [rv|e]; [| done].
  destruct (marker geo "EPI") as [epi|e]; [| done].
  cbn [rbind fs rng calls].
  match goal with
  | |- context [lib_dolfin_ldrb ?m ?f ?a ?s] =>
      destruct (lib_dolfin_ldrb m f a s) as [[system|e] [files' r']]
  end.
  - rewrite <- !app_assoc. reflexivity.
  - by rewrite <- !app_assoc.
Qed.

Lemma with_checkpoints_files x1 h1 x2 h2 x3 h3 files p :
  In p checkpoint_files ->
  is_Some (with_checkpoints x1 h1 x2 h2 x3 h3 files !! p).
Proof.
  unfold checkpoint_files, with_checkpoints.
  intros [<- | [<- | [<- | []]]];
    repeat (rewrite lookup_insert_ne by done); rewrite lookup_insert_eq; by eexists.
Qed.

(** The loop when the three checkpoints are written. *)
Lemma write_checkpoints_ok system w x1 h1 x2 h2 x3 h3 :
  xdmf_checkpoint (fiber system) "fiber" = Checkpoint x1 h1 ->
  xdmf_checkpoint (sheet system) "sheet" = Checkpoint x2 h2 ->
  xdmf_checkpoint (sheet_normal system) "sheet_normal" = Checkpoint x3 h3 ->
  write_checkpoints system w =
  (Ok tt,
   {| fs := with_checkpoints x1 h1 x2 h2 x3 h3 (fs w); rng := rng w;
      calls := calls w ++
        [CallWriteCheckpoint "data/fiber.xdmf" "fiber";
         CallWriteCheckpoint "data/sheet.xdmf" "sheet";
         CallWriteCheckpoint "data/sheet_normal.xdmf" "sheet_normal"] |}).
Proof.
  intros H1 H2 H3. rewrite write_checkpoints_run. cbv zeta.
  rewrite H1, H2, H3. reflexivity.
Qed.

(** The loop when it returns: all three checkpoints were written. *)
Lemma write_checkpoints_returned system w w' :
  write_checkpoints system w = (Ok tt, w') ->
  exists x1 h1 x2 h2 x3 h3,
    xdmf_checkpoint (fiber system) "fiber" = Checkpoint x1 h1 /\
    xdmf_checkpoint (sheet system) "sheet" = Checkpoint x2 h2 /\
    xdmf_checkpoint (sheet_normal system) "sheet_normal" = Checkpoint x3 h3.
Proof.
  rewrite write_checkpoints_run. cbv zeta.
  destruct (xdmf_checkpoint (fiber system) "fiber") as [x1 h1|]; [| done].
  destruct (xdmf_checkpoint (sheet system) "sheet") as [x2 h2|]; [| done].
  destruct (xdmf_checkpoint (sheet_normal system) "sheet_normal") as [x3 h3|]; [| done].
  intros _. by exists x1, h1, x2, h2, x3, h3.
Qed.

(** What the loop adds to the log, however it ends: the checkpoint calls
    it reached, fibre first. *)
Lemma write_checkpoints_log system w :
  exists new rest,
    calls (snd (write_checkpoints system w)) = calls w ++ new /\
    checkpoint_files = checkpoints_written new ++ rest /\
    no_growth new /\
    (fst (write_checkpoints system w) = Ok tt -> rest = []).
Proof.
  rewrite write_checkpoints_run. cbv zeta.
  destruct (checkpoint_result (xdmf_checkpoint (fiber system) "fiber")).
  2:{ exists [CallWriteCheckpoint "data/fiber.xdmf" "fiber"],
        ["data/sheet.xdmf"; "data/sheet_normal.xdmf"].
      repeat split; [by repeat constructor | done]. }
  destruct (checkpoint_result (xdmf_checkpoint (sheet system) "sheet")).
  2:{ exists [CallWriteCheckpoint "data/fiber.xdmf" "fiber";
              CallWriteCheckpoint "data/sheet.xdmf" "sheet"],
        ["data/sheet_normal.xdmf"].
      repeat split; [by repeat constructor | done]. }
  exists [CallWriteCheckpoint "data/fiber.xdmf" "fiber";
          CallWriteCheckpoint "data/sheet.xdmf" "sheet";
          CallWriteCheckpoint "data/sheet_normal.xdmf" "sheet_normal"], [].
  repeat split. by repeat constructor.
Qed.


(** C8, as amended.  When [data/biv_ellipsoid.msh] exists the mesh stage
    does nothing.  When it is missing the stage makes one library call, the
    mesh generator, on the directory [data] with seventeen keyword
    arguments: the characteristic length 0.2 and sixteen shape parameters,
    for each ventricle two centre offsets and the three semi-axes of the
    endocardial and of the epicardial ellipsoid. *)
Theorem mesh_stage_call (w : world) :
  (is_Some (fs w !! msh_file) -> mesh_stage w = (Ok tt, w)) /\
  (fs w !! msh_file = None ->
   calls (snd (mesh_stage w)) =
     calls w ++ [CallCreateBivEllipsoid "data" biv_ellipsoid_kwargs]) /\
  head biv_ellipsoid_kwargs = Some ("char_length", f_of_Q 0.2) /\
  map fst (shape_parameters biv_ellipsoid_kwargs) =
    [ "center_lv_y"; "center_lv_z";
      "a_endo_lv"; "b_endo_lv"; "c_endo_lv"; "a_epi_lv"; "b_epi_lv"; "c_epi_lv";
      "center_rv_y"; "center_rv_z";
      "a_endo_rv"; "b_endo_rv"; "c_endo_rv"; "a_epi_rv"; "b_epi_rv"; "c_epi_rv" ] /\
  length (shape_parameters biv_ellipsoid_kwargs) = 16%nat.
Proof.
  split; [apply mesh_stage_skip |]. split; [| by repeat split].
  intros Hf. unfold mesh_stage, bind, is_file.
  rewrite bool_decide_eq_false_2 by (rewrite Hf; by intros [? ?]).
  cbn [negb]. unfold create_biv_ellipsoid, bind, log, external. cbn [fs rng calls].
  by destruct (lib_create_biv_ellipsoid datadir biv_ellipsoid_kwargs (fs w, rng w))
    as [r [files rng']].
Qed.

End MeshAndFibers.

(* ===================================================================== *)
(** * The endocardial surface handed to the growth *)
(* ===================================================================== *)

Section Endocardium.
Context {F : Type} `{Float64 F} `{Libs F}.

Lemma first_tag_is_head tag x b :
  first_tag_is tag x = Ok b ->
  exists x0, head x = Some x0 /\ b = Z.eqb x0 tag.
Proof.
  unfold first_tag_is, getitem. destruct x as [|x0 x]; [done |].
  simpl. intros [= <-]. by exists x0.
Qed.

Lemma vstack_rows arrays a :
  vstack arrays = Ok a -> rows a = concat (map rows arrays).
Proof.
  unfold vstack. destruct arrays as [|a0 rest]; [done |].
  destruct (forallb _ rest); [| done]. by intros [= <-].
Qed.

Lemma drop_succ_of_nil {A} (l : list A) i : drop i l = [] -> drop (S i) l = [].
Proof.
  intros Hd. apply drop_ge.
  apply (f_equal length) in Hd. rewrite length_drop in Hd. simpl in Hd. lia.
Qed.

Lemma drop_succ_of_cons {A} (l : list A) i b rest :
  drop i l = b :: rest -> drop (S i) l = rest.
Proof.
  revert l. induction i as [|i IH]; intros [|a l] Hd; simpl in *; try done.
  - by injection Hd as _ ->.
  - by apply IH.
Qed.

(** The comprehension and the stacking, read off the blocks in order:
    block [i] contributes its rows when its first physical tag is [tag]. *)
Lemma stacked_rows_from (all_cells : list CellBlock) (tag : Z)
  (physical : list (list Z)) (i : nat) (inds : list nat) (blocks : list ndarray2) :
  filter_indices (first_tag_is tag) (enumerate_from i physical) = Ok inds ->
  mapM (fun i => block <- getitem all_cells i ;; Ok (data block))%R inds = Ok blocks ->
  concat (map rows blocks) = rows_of_tagged_blocks (drop i all_cells) physical tag.
Proof.
  revert i inds blocks.
  induction physical as [|x physical IH]; intros i inds blocks Hinds Hblocks.
  - injection Hinds as <-. injection Hblocks as <-.
    unfold rows_of_tagged_blocks. by rewrite zip_with_nil_r.
  - cbn [enumerate_from filter_indices] in Hinds.
    destruct (first_tag_is tag x) as [b|e] eqn:Hx; [| done].
    apply first_tag_is_head in Hx as (x0 & Hhead & ->).
    cbn [rbind] in Hinds.
    destruct (filter_indices (first_tag_is tag) (enumerate_from (S i) physical))
      as [kept|e] eqn:Hkept; [| done].
    cbn [rbind] in Hinds. injection Hinds as <-.
    destruct (Z.eqb x0 tag) eqn:Htag.
    + cbn [mapM] in Hblocks. unfold getitem at 1 in Hblocks.
      destruct (all_cells !! i) as [b|] eqn:Hb; [| done].
      cbn [rbind] in Hblocks.
      destruct (mapM _ kept) as [blocks'|e] eqn:Hrest; [| done].
      cbn [rbind] in Hblocks. injection Hblocks as <-.
      rewrite (drop_S _ _ _ Hb). unfold rows_of_tagged_blocks.
      cbn [zip_with map concat fst snd]. rewrite Hhead, Htag.
      f_equal. by apply (IH (S i) kept).
    + rewrite (IH (S i) kept blocks Hkept Hblocks).
      unfold rows_of_tagged_blocks.
      destruct (drop i all_cells) as [|b rest] eqn:Hd.
      * by rewrite (drop_succ_of_nil _ _ Hd).
      * rewrite (drop_succ_of_cons _ _ _ _ Hd).
        cbn [zip_with map concat fst snd]. by rewrite Hhead, Htag.
Qed.

(** What [purkinje_mesh] returns, when it returns. *)
Lemma purkinje_mesh_ok v msh mesh :
  purkinje_mesh v msh = Ok mesh ->
  exists tag physical index,
    endo_tag msh (endo_name v) = Ok tag /\
    cell_data msh !! "gmsh:physical" = Some physical /\
    rows (connectivity mesh) = rows_of_tagged_blocks (cells msh) physical tag /\
    verts mesh = points msh /\
    nearest_index (points msh) (seed_point v) = Ok index /\
    points msh !! index = Some (init_node mesh).
Proof.
  unfold purkinje_mesh. intros Hm.
  destruct (endo_tag msh (endo_name v)) as [tag|e]; [| done].
  cbn [rbind] in Hm. unfold tagged_blocks, dict_get in Hm.
  destruct (cell_data msh !! "gmsh:physical") as [physical|]; [| done].
  cbn [rbind] in Hm.
  destruct (filter_indices (first_tag_is tag) (enumerate physical))
    as [inds|e] eqn:Hinds; [| done].
  cbn [rbind] in Hm. unfold stack_blocks in Hm.
  destruct (mapM _ inds) as [blocks|e] eqn:Hblocks; [| done].
  cbn [rbind] in Hm.
  destruct (vstack blocks) as [conn|e] eqn:Hconn; [| done].
  cbn [rbind] in Hm.
  destruct (nearest_index (points msh) (seed_point v)) as [index|e]; [| done].
  cbn [rbind] in Hm. unfold getitem in Hm.
  destruct (points msh !! index) as [origin|] eqn:Horigin; [| done].
  injection Hm as <-. exists tag, physical, index. cbn [connectivity verts init_node].
  repeat split; try done.
  rewrite (vstack_rows _ _ Hconn).
  by rewrite (stacked_rows_from (cells msh) tag physical 0 inds blocks Hinds Hblocks).
Qed.

(** A growth call in what a tree stage logs is the growth on the mesh the
    stage built from the mesh file. *)
Lemma growth_call_mesh v w new mesh param :
  calls (snd (purkinje_stage v w)) = calls w ++ new ->
  In (CallGenerateFractalTree mesh param) new ->
  exists content msh,
    fs w !! msh_file = Some content /\
    msh_decode content = Ok msh /\
    purkinje_mesh v msh = Ok mesh.
Proof.
  intros Hcalls Hin.
  destruct (fs w !! tree_file v) as [tree|] eqn:Hf.
  - rewrite purkinje_stage_skip in Hcalls by (by eexists). cbn [snd] in Hcalls.
    rewrite <- (app_nil_r (calls w)) in Hcalls at 1.
    apply app_inv_head in Hcalls as <-. destruct Hin.
  - destruct (purkinje_stage_calls v w Hf) as (new' & Hnew & Hcases).
    rewrite Hnew in Hcalls. apply app_inv_head in Hcalls as ->.
    destruct Hcases as [-> | (content & mesh' & Hc & Hmesh & ->)].
    + by destruct Hin as [|[]].
    + destruct Hin as [|[|[Heq|[]]]]; try done.
      injection Heq as -> _. exists content.
      destruct (msh_decode content) as [msh|e]; [| done].
      by exists msh.
Qed.

Lemma uniform_block_rows (tag t0 : Z) (cell_rows : list (list Z)) (x : list Z) :
  length x = length cell_rows ->
  (forall t, In t x -> t = t0) ->
  map fst (List.filter (fun ct : list Z * Z => Z.eqb (snd ct) tag) (zip cell_rows x)) =
  if Z.eqb t0 tag then cell_rows else [].
Proof.
  revert x. induction cell_rows as [|row cell_rows IH]; intros [|t x] Hlen Hall;
    try done; simpl in *.
  - by destruct (Z.eqb t0 tag).
  - rewrite (Hall t) by auto. specialize (IH x).
    destruct (Z.eqb t0 tag); simpl; rewrite IH by auto; done.
Qed.

Lemma uniformly_tagged_rows blocks physical tag :
  uniformly_tagged blocks physical ->
  rows_of_tagged_blocks blocks physical tag = cells_with_tag blocks physical tag.
Proof.
  unfold uniformly_tagged, rows_of_tagged_blocks, cells_with_tag.
  induction 1 as [|[b x] l [Hlen Hall] _ IH]; [done |].
  cbn [map concat fst snd] in *. rewrite IH. f_equal.
  destruct x as [|t0 x].
  - destruct (rows (data b)); [done | discriminate].
  - cbn [head]. symmetry. apply uniform_block_rows; [done |].
    intros t Ht. specialize (Hall t Ht). by injection Hall.
Qed.

Lemma no_block_selected tag physical i :
  Forall (fun x : list Z => head x <> Some tag) physical ->
  filter_indices (first_tag_is tag) (enumerate_from i physical) = Ok [] \/
  filter_indices (first_tag_is tag) (enumerate_from i physical) = Raise IndexError.
Proof.
  intros Hall. revert i.
  induction Hall as [|x physical Hx _ IH]; intros i; [by left |].
  cbn [enumerate_from filter_indices].
  destruct x as [|x0 x]; [by right |].
  assert (first_tag_is tag (x0 :: x) = Ok (Z.eqb x0 tag)) as -> by done.
  cbn [rbind].
  destruct (Z.eqb_spec x0 tag) as [-> | _]; [done |].
  destruct (IH (S i)) as [-> | ->]; [by left | by right].
Qed.

Lemma purkinje_mesh_empty_selection v msh tag physical :
  endo_tag msh (endo_name v) = Ok tag ->
  cell_data msh !! "gmsh:physical" = Some physical ->
  Forall (fun x : list Z => head x <> Some tag) physical ->
  exists e, empty_selection_error e /\ purkinje_mesh v msh = Raise e.
Proof.
  intros Htag Hphys Hnone. unfold purkinje_mesh, tagged_blocks, dict_get.
  rewrite Htag, Hphys. cbn [rbind].
  destruct (no_block_selected tag physical 0 Hnone) as [Hsel | Hsel];
    unfold enumerate; rewrite Hsel; cbn [rbind].
  - eexists. split; [by left | done].
  - eexists. split; [by right | done].
Qed.

(** C4, as amended.  The connectivity a tree stage passes to the growth
    consists of the cells of exactly those cell blocks whose first
    physical tag equals the tag of the ventricle's endocardium, block
    after block.  When every block carries one tag for all of its cells,
    these are exactly the cells whose tag is the endocardial tag. *)
Theorem connectivity_is_tagged_blocks (v : ventricle) (w : world)
  (new : list (call F)) (mesh : Mesh F) (param : FractalTreeParameters F) :
  calls (snd (purkinje_stage v w)) = calls w ++ new ->
  In (CallGenerateFractalTree mesh param) new ->
  exists content msh tag physical,
    fs w !! msh_file = Some content /\
    msh_decode content = Ok msh /\
    endo_tag msh (endo_name v) = Ok tag /\
    cell_data msh !! "gmsh:physical" = Some physical /\
    rows (connectivity mesh) = rows_of_tagged_blocks (cells msh) physical tag /\
    (uniformly_tagged (cells msh) physical ->
     rows (connectivity mesh) = cells_with_tag (cells msh) physical tag).
Proof.
  intros Hcalls Hin.
  destruct (growth_call_mesh v w new mesh param Hcalls Hin)
    as (content & msh & Hc & Hdec & Hmesh).
  destruct (purkinje_mesh_ok v msh mesh Hmesh)
    as (tag & physical & index & Htag & Hphys & Hrows & _).
  exists content, msh, tag, physical. repeat split; try done.
  intros Hu. by rewrite Hrows, uniformly_tagged_rows.
Qed.

(** C5.  When the tag of the ventricle's endocardium is the first tag of
    no cell block of the mesh, a tree stage that runs raises, from
    [np.vstack] on the empty list (or from [x[0]] on a block without
    cells), before it seeds the generator or grows a tree: the one call
    it logged is the reading of the mesh and no file changed.  Whatever
    follows the stage in the script is not run. *)
Theorem empty_selection_raises (v : ventricle) (w : world)
  (content : bytes) (msh : Msh F) (tag : Z) (physical : list (list Z)) :
  fs w !! tree_file v = None ->
  fs w !! msh_file = Some content ->
  msh_decode content = Ok msh ->
  endo_tag msh (endo_name v) = Ok tag ->
  cell_data msh !! "gmsh:physical" = Some physical ->
  Forall (fun x : list Z => head x <> Some tag) physical ->
  exists e,
    empty_selection_error e /\
    purkinje_stage v w = (Raise e, logged w [CallMeshioRead msh_file]) /\
    forall (A : Type) (rest : unit -> M A),
      bind (purkinje_stage v) rest w = (Raise e, logged w [CallMeshioRead msh_file]).
Proof.
  intros Hf Hc Hdec Htag Hphys Hnone.
  destruct (purkinje_mesh_empty_selection v msh tag physical Htag Hphys Hnone)
    as (e & He & Hmesh).
  assert (purkinje_stage v w = (Raise e, logged w [CallMeshioRead msh_file])) as Hstage.
  { rewrite purkinje_stage_run, grow_purkinje_eq by done.
    rewrite Hc, Hdec. cbn [rbind]. by rewrite Hmesh. }
  exists e. split; [done |]. split; [done |].
  intros A rest. unfold bind. by rewrite Hstage.
Qed.

End Endocardium.

(* ===================================================================== *)
(** * The origin of the growth: the vertex nearest to the seed *)
(* ===================================================================== *)

Section NearestVertex.
Context {F : Type} `{Float64Order F} `{Libs F}.

Lemma norms_are_distances (vs : list (point F)) (seed : point F) :
  norm_axis1 (subtract vs seed) = map (distance seed) vs.
Proof. unfold norm_axis1, subtract. by rewrite map_map. Qed.

(** What lines 105-106 compute for a vertex, the norm of the row of
    differences, is the Euclidean distance of the formula. *)
Lemma distance_is_euclidean (seed v : point F) :
  distance seed v = euclidean_distance seed v.
Proof. by destruct seed as [[a b] c], v as [[x y] z]. Qed.

Lemma norms_are_euclidean (vs : list (point F)) (seed : point F) :
  norm_axis1 (subtract vs seed) = map (euclidean_distance seed) vs.
Proof.
  rewrite norms_are_distances. apply map_ext.
  intros v. apply distance_is_euclidean.
Qed.

(** The lookup on a mesh with a vertex: it returns an index of the array,
    no vertex is nearer to the seed than the vertex there, and every
    vertex before it is strictly farther. *)
Lemma nearest_index_minimal (vs : list (point F)) (seed : point F) :
  vs <> [] ->
  no_nan_distance seed vs ->
  exists index origin,
    nearest_index vs seed = Ok index /\
    vs !! index = Some origin /\
    (forall u, In u vs ->
       f_ge (euclidean_distance seed u) (euclidean_distance seed origin) = true) /\
    (forall j u, (j < index)%nat -> vs !! j = Some u ->
       f_ge (euclidean_distance seed origin) (euclidean_distance seed u) = false).
Proof.
  intros Hne Hdef. unfold nearest_index. rewrite norms_are_euclidean.
  destruct (argmin_first_minimum (map (euclidean_distance seed) vs))
    as (k & m & Hk & Hm & Hmin & Hfirst).
  - by destruct vs.
  - by apply Forall_map.
  - change (map (euclidean_distance seed) vs)
      with (euclidean_distance seed <$> vs) in Hm, Hmin, Hfirst.
    rewrite list_lookup_fmap in Hm.
    destruct (vs !! k) as [origin|] eqn:Horigin; [| done].
    injection Hm as <-. exists k, origin. repeat split; try done.
    + intros u Hu. apply list_elem_of_In, list_elem_of_lookup in Hu as [j Hj].
      apply (Hmin j). by rewrite list_lookup_fmap, Hj.
    + intros j u Hlt Hj. apply (Hfirst j); [done |].
      by rewrite list_lookup_fmap, Hj.
Qed.

(** C6, as amended.  For every array of vertices with at least one vertex
    and every seed coordinate from which no computed distance is NaN, the
    lookup of lines 105-106 (147-148) returns the index of a vertex whose
    Euclidean distance to the seed, computed in float64 arithmetic (the
    square root of the sum of the squares of the coordinate differences,
    every operation rounded), is minimal over all vertices; it is the
    first such vertex of the array.  The origin a tree stage hands to the
    growth is the vertex of the mesh at that index, for the seed of its
    ventricle. *)
Theorem growth_origin_has_least_computed_distance :
  (forall (vs : list (point F)) (seed : point F),
     vs <> [] ->
     no_nan_distance seed vs ->
     exists index origin,
       nearest_index vs seed = Ok index /\
       vs !! index = Some origin /\
       (forall u, In u vs ->
          f_ge (euclidean_distance seed u) (euclidean_distance seed origin) = true) /\
       (forall j u, (j < index)%nat -> vs !! j = Some u ->
          f_ge (euclidean_distance seed origin) (euclidean_distance seed u) = false)) /\
  (forall (v : ventricle) (w : world) (new : list (call F))
          (mesh : Mesh F) (param : FractalTreeParameters F),
     calls (snd (purkinje_stage v w)) = calls w ++ new ->
     In (CallGenerateFractalTree mesh param) new ->
     no_nan_distance (seed_point v) (verts mesh) ->
     exists index,
       nearest_index (verts mesh) (seed_point v) = Ok index /\
       verts mesh !! index = Some (init_node mesh) /\
       (forall u, In u (verts mesh) ->
          f_ge (euclidean_distance (seed_point v) u)
               (euclidean_distance (seed_point v) (init_node mesh)) = true) /\
       (forall j u, (j < index)%nat -> verts mesh !! j = Some u ->
          f_ge (euclidean_distance (seed_point v) (init_node mesh))
               (euclidean_distance (seed_point v) u) = false)).
Proof.
  split; [apply nearest_index_minimal |].
  intros v w new mesh param Hcalls Hin Hdef.
  destruct (growth_call_mesh v w new mesh param Hcalls Hin)
    as (content & msh & _ & _ & Hmesh).
  destruct (purkinje_mesh_ok v msh mesh Hmesh)
    as (_ & _ & index & _ & _ & _ & Hverts & Hindex & Horigin).
  rewrite Hverts in *. exists index. split; [done |]. split; [done |].
  destruct (nearest_index_minimal (points msh) (seed_point v))
    as (index' & origin & Hi & Ho & Hmin & Hfirst); [| done |].
  - intros Hnil. by rewrite Hnil in Horigin.
  - rewrite Hindex in Hi. injection Hi as <-.
    rewrite Horigin in Ho. by injection Ho as <-.
Qed.

(** C7, as amended.  The lookup is a function of the vertex array and the
    seed.  On an array with at least one vertex and no computed distance
    that is NaN, and on any permutation of it, it returns the index of a
    vertex at the same, minimal, distance from the seed, as computed in
    float64 arithmetic, and of the same vertex when no other vertex is as
    near; the index itself is the first position, in the order given, of a
    vertex at that distance. *)
Theorem nearest_vertex_under_permutation (vs vs' : list (point F)) (seed : point F) :
  Permutation vs vs' ->
  vs <> [] ->
  no_nan_distance seed vs ->
  exists i j u u',
    nearest_index vs seed = Ok i /\ vs !! i = Some u /\
    nearest_index vs' seed = Ok j /\ vs' !! j = Some u' /\
    f_ge (euclidean_distance seed u) (euclidean_distance seed u') = true /\
    f_ge (euclidean_distance seed u') (euclidean_distance seed u) = true /\
    (forall k x, (k < i)%nat -> vs !! k = Some x ->
       f_ge (euclidean_distance seed u) (euclidean_distance seed x) = false) /\
    (forall k x, (k < j)%nat -> vs' !! k = Some x ->
       f_ge (euclidean_distance seed u') (euclidean_distance seed x) = false) /\
    ((forall x, In x vs ->
        f_ge (euclidean_distance seed u) (euclidean_distance seed x) = true -> x = u) ->
     u' = u).
Proof.
  intros Hperm Hne Hdef.
  assert (vs' <> []) as Hne'.
  { intros ->. by apply Permutation_nil_r in Hperm. }
  assert (no_nan_distance seed vs') as Hdef'.
  { unfold no_nan_distance in *. by rewrite <- Hperm. }
  destruct (nearest_index_minimal vs seed Hne Hdef)
    as (i & u & Hi & Hu & Hmin & Hfirst).
  destruct (nearest_index_minimal vs' seed Hne' Hdef')
    as (j & u' & Hj & Hu' & Hmin' & Hfirst').
  assert (In u' vs) as Hin'.
  { apply (Permutation_in _ (Permutation_sym Hperm)).
    apply list_elem_of_In, list_elem_of_lookup. by exists j. }
  assert (In u vs') as Hin.
  { apply (Permutation_in _ Hperm).
    apply list_elem_of_In, list_elem_of_lookup. by exists i. }
  exists i, j, u, u'. repeat split; try done.
  - by apply Hmin'.
  - by apply Hmin.
  - intros Huniq. apply Huniq; [done |]. by apply Hmin'.
Qed.

End NearestVertex.

(* ===================================================================== *)
(** * The lookup at its edges: bounds, the empty array, NaN *)
(* ===================================================================== *)

Section LookupEdges.
Context {F : Type} `{Float64 F}.

Lemma argmin_scan_bound (xs : list F) (mp : F) (k i : nat) :
  (k < i)%nat -> (argmin_scan mp k i xs < i + length xs)%nat.
Proof.
  revert mp k i. induction xs as [|x xs IH]; intros mp k i Hk; simpl; [lia |].
  destruct (negb (f_ge x mp)).
  - destruct (f_isnan x); [lia |].
    specialize (IH x i (S i)). lia.
  - specialize (IH mp k (S i)). lia.
Qed.

Lemma argmin_bound (a : list F) (k : nat) : argmin a = Ok k -> (k < length a)%nat.
Proof.
  destruct a as [|x xs]; [done |]. simpl. intros [= <-].
  destruct (f_isnan x); [lia |].
  pose proof (argmin_scan_bound xs x 0 1). lia.
Qed.

(** The index the lookup returns is an index of the vertex array, whatever
    the coordinates are (NaN included), so that [verts[index, :]] never
    raises; and the lookup raises on the array without vertices only, with
    the error of [argmin] on an empty sequence. *)
Theorem nearest_index_in_range (vs : list (point F)) (seed : point F) :
  match nearest_index vs seed with
  | Ok index => exists origin, getitem vs index = Ok origin
  | Raise e =>
      vs = [] /\ e = ValueError "attempt to get argmin of an empty sequence"
  end.
Proof.
  unfold nearest_index.
  destruct (argmin (norm_axis1 (subtract vs seed))) as [index|e] eqn:Ha.
  - apply argmin_bound in Ha.
    unfold norm_axis1, subtract in Ha. rewrite !length_map in Ha.
    unfold getitem. destruct (lookup_lt_is_Some_2 vs index Ha) as [origin ->].
    by exists origin.
  - destruct vs as [|v vs]; [| done].
    simpl in Ha. by injection Ha as <-.
Qed.

End LookupEdges.

Lemma is_nan_true_SF (x : float) :
  PrimFloat.is_nan x = true -> Prim2SF x = S754_nan.
Proof.
  unfold PrimFloat.is_nan. rewrite FloatAxioms.eqb_spec. unfold SFeqb.
  destruct (Prim2SF x) as [s|s| |s m e]; simpl; try done.
  - by destruct s.
  - rewrite Z.compare_refl.
    change (Pos.compare_cont Eq m m) with (Pos.compare m m).
    rewrite Pos.compare_refl. by destruct s.
Qed.

Lemma nan_is_not_above (x y : float) :
  PrimFloat.is_nan x = true -> f_ge x y = false.
Proof.
  intros Hx. simpl. rewrite FloatAxioms.leb_spec, (is_nan_true_SF x Hx).
  unfold SFleb. by destruct (Prim2SF y).
Qed.

Lemma argmin_scan_first_nan (before after : list float) (x mp : float) (k i : nat) :
  Forall (fun y => PrimFloat.is_nan y = false) before ->
  PrimFloat.is_nan x = true ->
  argmin_scan mp k i (before ++ x :: after) = (i + length before)%nat.
Proof.
  intros Hbefore Hx. revert mp k i.
  induction Hbefore as [|y before Hy _ IH]; intros mp k i;
    cbn [app argmin_scan length].
  - rewrite (nan_is_not_above x mp Hx). cbn [negb].
    change (f_isnan x) with (PrimFloat.is_nan x). rewrite Hx. lia.
  - change (f_isnan y) with (PrimFloat.is_nan y). rewrite Hy.
    destruct (negb (f_ge y mp)); rewrite IH; lia.
Qed.

(** In binary64 a distance that is NaN wins the lookup: when the distance
    of a vertex to the seed is NaN and no vertex before it has such a
    distance, the lookup returns the index of that vertex, whatever the
    other distances are.  No error is raised. *)
Theorem nearest_index_takes_first_nan
  (before after : list (point float)) (v seed : point float) :
  distances_defined seed before ->
  PrimFloat.is_nan (distance seed v) = true ->
  nearest_index (before ++ v :: after) seed = Ok (length before).
Proof.
  intros Hbefore Hv. unfold nearest_index, norm_axis1, subtract.
  rewrite !map_app. cbn [map].
  change (row_norm (row_sub v seed)) with (distance seed v).
  assert (Forall (fun y => PrimFloat.is_nan y = false)
            (map row_norm (map (fun u => row_sub u seed) before))) as Hb.
  { rewrite map_map. apply Forall_map. exact Hbefore. }
  set (ds := map row_norm (map (fun u => row_sub u seed) before)) in *.
  assert (length ds = length before) as Hlen.
  { unfold ds. by rewrite !length_map. }
  destruct ds as [|d ds]; cbn [app argmin length] in *.
  - change (f_isnan (distance seed v)) with (PrimFloat.is_nan (distance seed v)).
    rewrite Hv. by rewrite <- Hlen.
  - apply Forall_cons in Hb as [Hd Hds].
    change (f_isnan d) with (PrimFloat.is_nan d). rewrite Hd.
    rewrite (argmin_scan_first_nan ds _ (distance seed v) d 0 1 Hds Hv).
    by rewrite <- Hlen.
Qed.

(* ===================================================================== *)
(** * The selection of the blocks at its edges *)
(* ===================================================================== *)

Section Selection.
Context {F : Type}.

(** The comprehension, read from position [i] on: the indices it keeps are
    those of the arrays whose first entry is [tag], in increasing order. *)
Lemma filter_indices_spec (tag : Z) (physical : list (list Z)) (i : nat)
  (inds : list nat) :
  filter_indices (first_tag_is tag) (enumerate_from i physical) = Ok inds ->
  (forall j, In j inds <->
     exists x, (i <= j)%nat /\ physical !! (j - i)%nat = Some x /\ head x = Some tag) /\
  StronglySorted lt inds.
Proof.
  revert i inds. induction physical as [|x physical IH]; intros i inds Hinds.
  - injection Hinds as <-. split; [| constructor].
    intros j. split; [done |]. by intros (x & _ & Hx & _).
  - cbn [enumerate_from filter_indices] in Hinds.
    destruct (first_tag_is tag x) as [b|e] eqn:Hx; [| done].
    apply first_tag_is_head in Hx as (x0 & Hhead & ->).
    cbn [rbind] in Hinds.
    destruct (filter_indices (first_tag_is tag) (enumerate_from (S i) physical))
      as [kept|e] eqn:Hkept; [| done].
    cbn [rbind] in Hinds. injection Hinds as <-.
    destruct (IH (S i) kept Hkept) as [Hin Hsorted].
    assert (forall j, In j kept <->
              exists y, (i <= j)%nat /\ j <> i /\
                        (x :: physical) !! (j - i)%nat = Some y /\ head y = Some tag)
      as Hin'.
    { intros j. rewrite Hin. split.
      - intros (y & Hle & Hy & Hh). exists y.
        replace (j - i)%nat with (S (j - S i)) by lia. repeat split; [lia | lia | done | done].
      - intros (y & Hle & Hne & Hy & Hh). exists y.
        replace (j - i)%nat with (S (j - S i)) in Hy by lia.
        repeat split; [lia | done | done]. }
    destruct (Z.eqb_spec x0 tag) as [-> | Hne].
    + split.
      * intros j. cbn [In]. rewrite Hin'. split.
        -- intros [<- | (y & Hle & _ & Hy & Hh)].
           ++ exists x. rewrite Nat.sub_diag. by repeat split.
           ++ by exists y.
        -- intros (y & Hle & Hy & Hh).
           destruct (decide (j = i)) as [-> | Hji]; [by left |].
           right. by exists y.
      * constructor; [done |]. apply List.Forall_forall. intros j Hj.
        apply Hin in Hj as (y & Hle & _). lia.
    + split; [| done].
      intros j. rewrite Hin'. split.
      * intros (y & Hle & _ & Hy & Hh). by exists y.
      * intros (y & Hle & Hy & Hh). exists y. repeat split; try done.
        intros ->. rewrite Nat.sub_diag in Hy. cbn in Hy. injection Hy as <-.
        rewrite Hhead in Hh. by injection Hh.
Qed.

Lemma mapM_getitem_raise (blocks : list CellBlock) (inds : list nat) (e : exn) :
  mapM (fun i => block <- getitem blocks i ;; Ok (data block))%R inds = Raise e ->
  e = IndexError /\ exists i, In i inds /\ blocks !! i = None.
Proof.
  induction inds as [|i inds IH]; [done |]. cbn [mapM]. unfold getitem at 1.
  destruct (blocks !! i) as [b|] eqn:Hb; cbn [rbind].
  - destruct (mapM _ inds) as [rest|e'] eqn:Hrest; cbn [rbind]; [done |].
    intros [= <-]. destruct (IH eq_refl) as (-> & j & Hj & Hnone).
    split; [done |]. exists j. split; [by right | done].
  - intros [= <-]. split; [done |]. exists i. split; [by left | done].
Qed.

Lemma mapM_getitem_ok (blocks : list CellBlock) (inds : list nat)
  (arrays : list ndarray2) :
  mapM (fun i => block <- getitem blocks i ;; Ok (data block))%R inds = Ok arrays ->
  forall i b, In i inds -> blocks !! i = Some b -> In (data b) arrays.
Proof.
  revert arrays. induction inds as [|i inds IH]; intros arrays; [done |].
  cbn [mapM]. unfold getitem at 1.
  destruct (blocks !! i) as [b|] eqn:Hb; cbn [rbind]; [| done].
  destruct (mapM _ inds) as [rest|e'] eqn:Hrest; cbn [rbind]; [| done].
  intros [= <-] j bj [<- | Hj] Hbj.
  - rewrite Hb in Hbj. injection Hbj as <-. by left.
  - right. by apply (IH rest eq_refl j).
Qed.

Lemma vstack_ok_widths (arrays : list ndarray2) (a : ndarray2) :
  vstack arrays = Ok a -> forall b, In b arrays -> ncols b = ncols a.
Proof.
  unfold vstack. destruct arrays as [|a0 rest]; [done |].
  destruct (forallb _ rest) eqn:Hall; [| done]. intros [= <-] b [<- | Hb]; [done |].
  rewrite forallb_forall in Hall. specialize (Hall b Hb).
  by apply Nat.eqb_eq in Hall.
Qed.

(** The index list of lines 96 and 141: it holds exactly the indices of
    the tag arrays whose first entry is the tag, each once and in
    increasing order; it exists only when the mesh has physical tags and
    none of its tag arrays is empty. *)
Theorem tagged_blocks_are_matching_indices (msh : Msh F) (tag : Z) (inds : list nat) :
  tagged_blocks msh tag = Ok inds ->
  exists physical,
    cell_data msh !! "gmsh:physical" = Some physical /\
    (forall j, In j inds <->
       exists x, physical !! j = Some x /\ head x = Some tag) /\
    StronglySorted lt inds.
Proof.
  unfold tagged_blocks, dict_get.
  destruct (cell_data msh !! "gmsh:physical") as [physical|]; [| done].
  cbn [rbind]. unfold enumerate. intros Hinds.
  destruct (filter_indices_spec tag physical 0 inds Hinds) as [Hin Hsorted].
  exists physical. split; [done |]. split; [| done].
  intros j. rewrite Hin. rewrite Nat.sub_0_r. split.
  - intros (x & _ & Hx & Hh). by exists x.
  - intros (x & Hx & Hh). exists x. repeat split; [lia | done | done].
Qed.

(** When the mesh has a cell block for every tag array, as meshio builds
    it, [msh.cells[i]] is in range for every selected index: the stacking
    of line 97 (142) can fail with the errors of [np.vstack] only. *)
Theorem selected_blocks_are_in_range (msh : Msh F) (tag : Z) (inds : list nat)
  (physical : list (list Z)) :
  cell_data msh !! "gmsh:physical" = Some physical ->
  (length physical <= length (cells msh))%nat ->
  tagged_blocks msh tag = Ok inds ->
  exists arrays,
    mapM (fun i => block <- getitem (cells msh) i ;; Ok (data block))%R inds = Ok arrays /\
    stack_blocks msh inds = vstack arrays.
Proof.
  intros Hphys Hlen Hinds. unfold tagged_blocks, dict_get in Hinds.
  rewrite Hphys in Hinds. cbn [rbind] in Hinds. unfold enumerate in Hinds.
  destruct (filter_indices_spec tag physical 0 inds Hinds) as [Hin _].
  unfold stack_blocks.
  destruct (mapM _ inds) as [arrays|e] eqn:Hm.
  - by exists arrays.
  - apply mapM_getitem_raise in Hm as (_ & i & Hi & Hnone).
    apply Hin in Hi as (x & _ & Hx & _). rewrite Nat.sub_0_r in Hx.
    apply lookup_lt_Some in Hx. apply lookup_ge_None in Hnone. lia.
Qed.

(** Two selected blocks of different widths (cells of two types under one
    tag) cannot be stacked: line 97 (142) raises, from [np.vstack] when
    every selected index is in range. *)
Theorem blocks_of_two_widths_raise (msh : Msh F) (inds : list nat) (i j : nat)
  (bi bj : CellBlock) :
  In i inds -> In j inds ->
  cells msh !! i = Some bi -> cells msh !! j = Some bj ->
  ncols (data bi) <> ncols (data bj) ->
  exists e,
    stack_blocks msh inds = Raise e /\
    (e = IndexError \/
     e = ValueError "all the input array dimensions except for the concatenation axis must match exactly").
Proof.
  intros Hi Hj Hbi Hbj Hne. unfold stack_blocks.
  destruct (mapM _ inds) as [arrays|e] eqn:Hm; cbn [rbind].
  - pose proof (mapM_getitem_ok _ _ _ Hm i bi Hi Hbi) as Hai.
    pose proof (mapM_getitem_ok _ _ _ Hm j bj Hj Hbj) as Haj.
    destruct (vstack arrays) as [a|e] eqn:Hv.
    + pose proof (vstack_ok_widths _ _ Hv) as Hw.
      rewrite (Hw _ Hai), (Hw _ Haj) in Hne. done.
    + exists e. split; [done |]. right.
      unfold vstack in Hv. destruct arrays as [|a0 rest]; [destruct Hai |].
      destruct (forallb _ rest); [done |]. by injection Hv as <-.
  - apply mapM_getitem_raise in Hm as (-> & _). exists IndexError. by split; [| left].
Qed.

End Selection.

(* ===================================================================== *)
(** * Errors of the stages and the shape of a run *)
(* ===================================================================== *)

Section Runs.
Context {F : Type} `{Float64 F} `{Libs F}.

(** A mesh without the physical group of the ventricle's endocardium: the
    stage raises the [KeyError] of line 95 (140), naming the group, after
    it has read the mesh and before anything else. *)
Theorem missing_tag_raises_key_error (v : ventricle) (w : world)
  (content : bytes) (msh : Msh F) :
  fs w !! tree_file v = None ->
  fs w !! msh_file = Some content ->
  msh_decode content = Ok msh ->
  field_data msh !! endo_name v = None ->
  purkinje_stage v w =
    (Raise (KeyError (endo_name v)), logged w [CallMeshioRead msh_file]).
Proof.
  intros Hf Hc Hdec Hkey.
  rewrite purkinje_stage_run, grow_purkinje_eq by done.
  rewrite Hc, Hdec. cbn [rbind].
  unfold purkinje_mesh, endo_tag, dict_get. by rewrite Hkey.
Qed.

(** A mesh without vertices whose selection of blocks succeeds: the stage
    raises the [ValueError] of [argmin] on an empty sequence at line 106
    (148); it neither seeds the generator nor grows a tree. *)
Theorem empty_vertex_array_raises (v : ventricle) (w : world)
  (content : bytes) (msh : Msh F) (connectivity : ndarray2) :
  fs w !! tree_file v = None ->
  fs w !! msh_file = Some content ->
  msh_decode content = Ok msh ->
  (tag <- endo_tag msh (endo_name v) ;;
   inds <- tagged_blocks msh tag ;;
   stack_blocks msh inds)%R = Ok connectivity ->
  points msh = [] ->
  purkinje_stage v w =
    (Raise (ValueError "attempt to get argmin of an empty sequence"),
     logged w [CallMeshioRead msh_file]).
Proof.
  intros Hf Hc Hdec Hsel Hpoints.
  rewrite purkinje_stage_run, grow_purkinje_eq by done.
  rewrite Hc, Hdec. cbn [rbind]. unfold purkinje_mesh.
  destruct (endo_tag msh (endo_name v)) as [tag|e]; [| done]. cbn [rbind] in *.
  destruct (tagged_blocks msh tag) as [inds|e]; [| done]. cbn [rbind] in *.
  rewrite Hsel. cbn [rbind]. by rewrite Hpoints.
Qed.

Lemma ldrb_arguments_missing (geo : Geometry dolfin_mesh dolfin_meshfunction)
  (name : string) :
  In name marker_names ->
  geo_markers geo !! name = None ->
  exists e,
    ldrb_arguments geo = Raise e /\
    (e = IndexError \/
     exists key, e = KeyError key /\ In key marker_names /\
                 geo_markers geo !! key = None).
Proof.
  intros Hname Hnone. unfold ldrb_arguments, marker, dict_get, getitem.
  destruct (geo_markers geo !! "BASE") as [[|base ?]|] eqn:Hbase; cbn [rbind lookup list_lookup];
    [by eexists; split; [| left] | | eexists; split; [done |]; right; eexists;
     split; [done |]; split; [| done]; cbn; tauto].
  destruct (geo_markers geo !! "ENDO_LV") as [[|lv ?]|] eqn:Hlv; cbn [rbind lookup list_lookup];
    [by eexists; split; [| left] | | eexists; split; [done |]; right; eexists;
     split; [done |]; split; [| done]; cbn; tauto].
  destruct (geo_markers geo !! "ENDO_RV") as [[|rv ?]|] eqn:Hrv; cbn [rbind lookup list_lookup];
    [by eexists; split; [| left] | | eexists; split; [done |]; right; eexists;
     split; [done |]; split; [| done]; cbn; tauto].
  destruct (geo_markers geo !! "EPI") as [[|epi ?]|] eqn:Hepi; cbn [rbind lookup list_lookup];
    [by eexists; split; [| left] | | eexists; split; [done |]; right; eexists;
     split; [done |]; split; [| done]; cbn; tauto].
  destruct Hname as [<- | [<- | [<- | [<- | []]]]]; congruence.
Qed.

(** A geometry without one of the four markers the fibre stage reads: the
    stage raises at lines 60-65, with the [KeyError] of a missing marker
    (or the [IndexError] of an empty one), after the geometry was read;
    ldrb is not called and no checkpoint is written. *)
Theorem missing_marker_raises (w : world)
  (geo : Geometry dolfin_mesh dolfin_meshfunction)
  (files : gmap path bytes) (r : rng_state) (name : string) :
  fs w !! fiber_file = None ->
  lib_geometry_from_folder datadir (fs w, rng w) = (Ok geo, (files, r)) ->
  In name marker_names ->
  geo_markers geo !! name = None ->
  exists e,
    (e = IndexError \/
     exists key, e = KeyError key /\ In key marker_names /\
                 geo_markers geo !! key = None) /\
    fiber_stage w =
      (Raise e, {| fs := files; rng := r;
                   calls := calls w ++ [CallGeometryFromFolder datadir] |}).
Proof.
  intros Hf Hgeo Hname Hnone.
  destruct (ldrb_arguments_missing geo name Hname Hnone) as (e & Hargs & He).
  exists e. split; [done |].
  rewrite fiber_stage_run by done. by rewrite Hgeo, Hargs.
Qed.

(** ** What a run adds to the log *)

Lemma no_growth_seeded (cs : list (call F)) : no_growth cs -> seeded_before_growth cs.
Proof.
  intros Hno before c after -> Hc.
  apply Forall_app in Hno as [_ Hno]. apply Forall_cons in Hno as [Hno _].
  congruence.
Qed.

Lemma seeded_before_growth_app (a b : list (call F)) :
  seeded_before_growth a -> seeded_before_growth b -> seeded_before_growth (a ++ b).
Proof.
  intros Ha Hb before c after Heq Hc.
  apply app_eq_app in Heq as [l [[-> Hl] | [-> ->]]].
  - destruct l as [|c' l].
    + simpl in Hl. subst b.
      destruct (Hb [] c after eq_refl Hc) as [before' Hnil].
      by destruct before'.
    + injection Hl as <- _. exact (Ha before c l eq_refl Hc).
  - destruct (Hb l c after eq_refl Hc) as [before' ->].
    exists (a ++ before'). by rewrite app_assoc.
Qed.

Lemma tree_log_seeded v (cs : list (call F)) : tree_log v cs -> seeded_before_growth cs.
Proof.
  intros [-> | [-> | [mesh ->]]].
  - apply no_growth_seeded. constructor.
  - apply read_call_seeded.
  - apply growth_calls_seeded.
Qed.

Lemma mesh_stage_log w :
  exists n, calls (snd (mesh_stage w)) = calls w ++ n /\ no_growth n.
Proof.
  unfold mesh_stage, bind, is_file.
  destruct (bool_decide (is_Some (fs w !! msh_file))); cbn [negb].
  - exists []. split; [by rewrite app_nil_r | constructor].
  - unfold create_biv_ellipsoid, bind, log, external. cbn [fs rng calls].
    destruct (lib_create_biv_ellipsoid datadir biv_ellipsoid_kwargs (fs w, rng w))
      as [r [files rng']].
    eexists. split; [reflexivity | by repeat constructor].
Qed.

Lemma fiber_stage_log w :
  exists n, calls (snd (fiber_stage w)) = calls w ++ n /\ no_growth n.
Proof.
  destruct (fs w !! fiber_file) as [c|] eqn:Hf.
  - rewrite fiber_stage_skip by (by eexists).
    exists []. split; [by rewrite app_nil_r | constructor].
  - rewrite fiber_stage_run by done.
    destruct (lib_geometry_from_folder datadir (fs w, rng w))
      as [[geo|e] [files r]];
      [| eexists; split; [reflexivity | by repeat constructor]].
    destruct (ldrb_arguments geo) as [args|e];
      [| eexists; split; [reflexivity | by repeat constructor]].
    destruct (lib_dolfin_ldrb (geo_mesh geo) (geo_ffun geo) args (files, r))
      as [[system|e] [files' r']];
      [| eexists; split; [reflexivity | by repeat constructor]].
    match goal with |- context [write_checkpoints system ?w0] => set (w1 := w0) end.
    destruct (write_checkpoints_log system w1) as (new & rest & Hcalls & _ & Hnew & _).
    exists ([CallGeometryFromFolder datadir; CallDolfinLdrb args] ++ new).
    split; [by rewrite Hcalls, app_assoc |].
    apply Forall_app. split; [by repeat constructor | done].
Qed.

Lemma purkinje_stage_log v w :
  exists n, calls (snd (purkinje_stage v w)) = calls w ++ n /\ tree_log v n.
Proof.
  destruct (fs w !! tree_file v) as [c|] eqn:Hf.
  - rewrite purkinje_stage_skip by (by eexists).
    exists []. split; [by rewrite app_nil_r | by left].
  - destruct (purkinje_stage_calls v w Hf) as (n & Hn & [-> | (c & mesh & _ & _ & ->)]).
    + exists [CallMeshioRead msh_file]. split; [done | right; by left].
    + exists (growth_calls v mesh). split; [done | right; right; by exists mesh].
Qed.

(** The log of any run, from any state and with any libraries, however
    the run ends: the calls of the mesh stage, then those of the fibre
    stage, neither with a growth, then what the LV stage and the RV stage
    add, each nothing, the reading of the mesh, or reading, seed and
    growth.  So a run grows at most one tree per ventricle, the LV tree
    first, and every growth comes straight after [np.random.seed(1234)]. *)
Theorem run_log_shape (w : world) :
  exists n_mesh n_fiber n_lv n_rv,
    calls (snd (generate_data w)) = calls w ++ n_mesh ++ n_fiber ++ n_lv ++ n_rv /\
    no_growth n_mesh /\ no_growth n_fiber /\
    tree_log LV n_lv /\ tree_log RV n_rv /\
    seeded_before_growth (n_mesh ++ n_fiber ++ n_lv ++ n_rv).
Proof.
  assert (forall n1 n2 n3 n4 : list (call F),
            no_growth n1 -> no_growth n2 -> tree_log LV n3 -> tree_log RV n4 ->
            seeded_before_growth (n1 ++ n2 ++ n3 ++ n4)) as Hseeded.
  { intros n1 n2 n3 n4 H1 H2 H3 H4.
    repeat apply seeded_before_growth_app;
      eauto using no_growth_seeded, tree_log_seeded. }
  assert (no_growth ([] : list (call F))) as Hnil by exact (List.Forall_nil _).
  assert (forall v, tree_log v ([] : list (call F))) as Htnil by (by left).
  unfold generate_data, bind.
  destruct (mesh_stage_log w) as (n1 & H1 & G1).
  destruct (mesh_stage w) as [[[]|e] w1]; cbn [snd] in *.
  2:{ exists n1, [], [], []. split; [| by eauto 10].
      cbn [app]. by rewrite app_nil_r. }
  destruct (fiber_stage_log w1) as (n2 & H2 & G2).
  destruct (fiber_stage w1) as [[[]|e] w2]; cbn [snd] in *.
  2:{ exists n1, n2, [], []. split; [| by eauto 10].
      cbn [app]. by rewrite app_nil_r, H2, H1, <- app_assoc. }
  destruct (purkinje_stage_log LV w2) as (n3 & H3 & G3).
  destruct (purkinje_stage LV w2) as [[[]|e] w3]; cbn [snd] in *.
  2:{ exists n1, n2, n3, []. split; [| by eauto 10].
      by rewrite app_nil_r, H3, H2, H1, <- !app_assoc. }
  destruct (purkinje_stage_log RV w3) as (n4 & H4 & G4).
  exists n1, n2, n3, n4. split; [| by eauto 10].
  by rewrite H4, H3, H2, H1, <- !app_assoc.
Qed.

(** ** Resuming and rerunning *)

Lemma fiber_stage_post w w' :
  fiber_stage w = (Ok tt, w') -> is_Some (fs w' !! fiber_file).
Proof.
  destruct (fs w !! fiber_file) as [c|] eqn:Hf.
  - rewrite fiber_stage_skip by (by eexists). intros [= <-]. by eexists.
  - rewrite fiber_stage_run by done.
    destruct (lib_geometry_from_folder datadir (fs w, rng w))
      as [[geo|e] [files r]]; [| done].
    destruct (ldrb_arguments geo) as [args|e]; [| done].
    destruct (lib_dolfin_ldrb (geo_mesh geo) (geo_ffun geo) args (files, r))
      as [[system|e] [files' r']]; [| done].
    intros Hrun.
    destruct (write_checkpoints_returned _ _ _ Hrun)
      as (x1 & h1 & x2 & h2 & x3 & h3 & H1 & H2 & H3).
    rewrite (write_checkpoints_ok _ _ x1 h1 x2 h2 x3 h3 H1 H2 H3) in Hrun.
    injection Hrun as <-. cbn [fs]. apply with_checkpoints_files. by left.
Qed.

Lemma purkinje_stage_post v w w' :
  purkinje_stage v w = (Ok tt, w') -> is_Some (fs w' !! tree_file v).
Proof.
  destruct (fs w !! tree_file v) as [c|] eqn:Hf.
  - rewrite purkinje_stage_skip by (by eexists). intros [= <-]. by eexists.
  - rewrite purkinje_stage_run, grow_purkinje_eq by done.
    destruct (fs w !! msh_file) as [content|]; [| done].
    destruct (msh <- msh_decode content ;; purkinje_mesh v msh)%R as [mesh|e]; [| done].
    destruct (fst (grow_tree mesh (tree_parameters v) (seeded 1234)))
      as [vtu companions | e written]; [| done].
    intros [= <-]. cbn [fs after_growth].
    rewrite (tree_output_path v), lookup_insert_eq. by eexists.
Qed.

(** A run that returned has left its three guarded outputs, the fibre
    file and the two trees; when the mesh file is there as well, running
    the script again from the state it left returns at once and changes
    nothing. *)
Theorem rerun_after_completed_run (w w' : world) :
  generate_data w = (Ok tt, w') ->
  (is_Some (fs w' !! fiber_file) /\
   is_Some (fs w' !! lv_file) /\
   is_Some (fs w' !! rv_file)) /\
  (is_Some (fs w' !! msh_file) -> generate_data w' = (Ok tt, w')).
Proof.
  intros Hrun. unfold generate_data, bind in Hrun.
  destruct (mesh_stage w) as [[[]|e] w1]; [| done].
  destruct (fiber_stage w1) as [[[]|e] w2] eqn:Hfiber; [| done].
  destruct (purkinje_stage LV w2) as [[[]|e] w3] eqn:Hlv; [| done].
  apply fiber_stage_post in Hfiber.
  pose proof (purkinje_stage_post LV _ _ Hlv) as Hlv'. cbn [tree_file] in Hlv'.
  pose proof (purkinje_stage_post RV _ _ Hrun) as Hrv'. cbn [tree_file] in Hrv'.
  pose proof (purkinje_stage_frame LV w2 fiber_file) as F1.
  pose proof (purkinje_stage_frame RV w3 fiber_file) as F2.
  pose proof (purkinje_stage_frame RV w3 lv_file) as F3.
  rewrite Hlv in F1. rewrite Hrun in F2, F3. cbn [snd] in F1, F2, F3.
  assert (is_Some (fs w' !! fiber_file)) as Hfiber'.
  { rewrite F2, F1; done. }
  assert (is_Some (fs w' !! lv_file)) as Hlv''.
  { rewrite F3; done. }
  split; [done |]. intros Hmsh. unfold generate_data, bind.
  rewrite mesh_stage_skip, fiber_stage_skip by done.
  by rewrite (purkinje_stage_skip LV), (purkinje_stage_skip RV).
Qed.

(** A run that finds the mesh file and the fibre file is the two tree
    stages: it changes no file but those named after the two paths it
    gives to the growth, [data/lv_tree] and [data/rv_tree], whether it
    returns or raises; and without a growth in its log it changes no file
    at all. *)
Theorem run_with_mesh_and_fibers_frame (w : world) :
  is_Some (fs w !! msh_file) ->
  is_Some (fs w !! fiber_file) ->
  generate_data w = bind (purkinje_stage LV) (fun _ => purkinje_stage RV) w /\
  (forall p : path,
     String.prefix "data/lv_tree" p = false ->
     String.prefix "data/rv_tree" p = false ->
     fs (snd (generate_data w)) !! p = fs w !! p) /\
  (forall new,
     calls (snd (generate_data w)) = calls w ++ new ->
     no_growth new ->
     fs (snd (generate_data w)) = fs w).
Proof.
  intros Hmsh Hfiber.
  assert (generate_data w = bind (purkinje_stage LV) (fun _ => purkinje_stage RV) w)
    as ->.
  { unfold generate_data, bind.
    by rewrite mesh_stage_skip, fiber_stage_skip by done. }
  split; [done |]. unfold bind. split.
  - intros p Hlv Hrv.
    pose proof (purkinje_stage_frame LV w p Hlv) as F1.
    destruct (purkinje_stage LV w) as [[[]|e] w1]; cbn [snd] in *; [| done].
    by rewrite (purkinje_stage_frame RV w1 p Hrv).
  - intros new Hcalls Hnew.
    destruct (purkinje_stage_log LV w) as (n1 & H1 & T1).
    pose proof (stage_without_growth LV w) as G1.
    destruct (purkinje_stage LV w) as [[[]|e] w1]; cbn [snd] in *.
    + destruct (purkinje_stage_log RV w1) as (n2 & H2 & T2).
      pose proof (stage_without_growth RV w1) as G2.
      rewrite H2, H1, <- app_assoc in Hcalls.
      apply app_inv_head in Hcalls as <-.
      apply Forall_app in Hnew as [Hn1 Hn2].
      by rewrite (G2 n2 H2 Hn2), (G1 n1 H1 Hn1).
    + rewrite H1 in Hcalls. apply app_inv_head in Hcalls as <-.
      by apply (G1 n1).
Qed.

End Runs.

(* ===================================================================== *)
(** * The paths: name and stem of a file in a directory *)
(* ===================================================================== *)

Lemma chars_append (a b : string) :
  list_ascii_of_string (a ++ b)%string =
  list_ascii_of_string a ++ list_ascii_of_string b.
Proof. induction a as [|c a IH]; simpl; [done | by rewrite IH]. Qed.

Lemma string_append_assoc (a b c : string) :
  ((a ++ b) ++ c)%string = (a ++ (b ++ c))%string.
Proof.
  induction a as [|x a IH]; [reflexivity |].
  change (String x ((a ++ b) ++ c)%string = String x (a ++ (b ++ c))%string).
  by rewrite IH.
Qed.

Lemma take_until_stops (c : ascii) (l rest : list ascii) :
  ~ In c l -> take_until c (l ++ c :: rest) = l.
Proof.
  induction l as [|a l IH]; intros Hc; simpl.
  - by rewrite Ascii.eqb_refl.
  - destruct (Ascii.eqb_spec a c) as [-> | _]; [destruct Hc; by left |].
    rewrite IH; [done |]. intros Hin. apply Hc. by right.
Qed.

Lemma drop_through_stops (c : ascii) (l rest : list ascii) :
  ~ In c l -> drop_through c (l ++ c :: rest) = Some rest.
Proof.
  induction l as [|a l IH]; intros Hc; simpl.
  - by rewrite Ascii.eqb_refl.
  - destruct (Ascii.eqb_spec a c) as [-> | _]; [destruct Hc; by left |].
    apply IH. intros Hin. apply Hc. by right.
Qed.

Lemma path_name_of_join (d name : string) :
  without_char slash name -> path_name (path_join d name) = name.
Proof.
  intros Hname. unfold path_name, path_join.
  rewrite !chars_append. cbn [list_ascii_of_string app].
  rewrite rev_app_distr. cbn [rev]. rewrite <- app_assoc. cbn [app].
  rewrite take_until_stops.
  - by rewrite rev_involutive, string_of_list_ascii_of_string.
  - intros Hin. apply Hname. by apply in_rev.
Qed.

(** For a file [stem.ext] in a directory, with neither a slash nor a dot
    in the stem and in the extension and neither of them empty:
    [Path.name] is the file name, [Path.stem] is the stem, and the path
    the script hands to the growth, [datadir / file.stem] (lines 122 and
    156), gives back the path of the file once the extension is put
    behind it. *)
Theorem stem_of_file_in_directory (d stem ext : string) :
  without_char slash stem -> without_char dot stem -> stem <> ""%string ->
  without_char slash ext -> without_char dot ext -> ext <> ""%string ->
  let file := path_join d (stem ++ "." ++ ext)%string in
  path_name file = (stem ++ "." ++ ext)%string /\
  path_stem file = stem /\
  (path_join d (path_stem file) ++ "." ++ ext)%string = file.
Proof.
  intros Hs1 Hs2 Hs3 He1 He2 He3 file.
  assert (path_name file = (stem ++ "." ++ ext)%string) as Hname.
  { apply path_name_of_join. unfold without_char.
    rewrite !chars_append. cbn [list_ascii_of_string app].
    intros Hin. apply in_app_or in Hin as [Hin | [Hin | Hin]]; [by apply Hs1 | | by apply He1].
    discriminate Hin. }
  assert (path_stem file = stem) as Hstem.
  { unfold path_stem. rewrite Hname.
    rewrite !chars_append. cbn [list_ascii_of_string app].
    rewrite rev_app_distr. cbn [rev]. rewrite <- app_assoc. cbn [app].
    assert (~ In dot (rev (list_ascii_of_string ext))) as He2'.
    { intros Hin. apply He2. by apply in_rev. }
    rewrite take_until_stops, drop_through_stops by done.
    destruct (rev (list_ascii_of_string ext)) as [|e0 re] eqn:Hre.
    { destruct ext as [|c ext]; [done |]. simpl in Hre.
      by destruct (rev (list_ascii_of_string ext)). }
    destruct (rev (list_ascii_of_string stem)) as [|c before] eqn:Hrs.
    { destruct stem as [|c stem]; [done |]. simpl in Hrs.
      by destruct (rev (list_ascii_of_string stem)). }
    change (rev before ++ [c]) with (rev (c :: before)).
    rewrite <- Hrs, rev_involutive. apply string_of_list_ascii_of_string. }
  split; [done |]. split; [done |].
  rewrite Hstem. unfold file, path_join.
  by rewrite !string_append_assoc.
Qed.

(* ===================================================================== *)
(** * The theorems at work on the small instance *)
(* ===================================================================== *)

Ltac file_present := vm_compute; eexists; reflexivity.
Ltac file_missing := vm_compute; reflexivity.

(** Paths as the script builds them. *)
Example script_paths :
  (msh_file, fiber_file, lv_file, rv_file) =
  ("data/biv_ellipsoid.msh", "data/fiber.xdmf", "data/lv_tree.vtu", "data/rv_tree.vtu") /\
  path_join datadir (path_stem lv_file) = "data/lv_tree" /\
  path_with_suffix "data/sheet_normal.xdmf" ".h5" = "data/sheet_normal.h5".
Proof. repeat split; reflexivity. Qed.

(** A run in an empty directory makes every call once per stage and ends
    with the fifteen files of the four stages: the mesh, three checkpoints
    of two files each, two trees of four files each. *)
Example run_in_empty_directory :
  fst (generate_data (demo_world ∅)) = Ok tt /\
  map is_growth (calls (snd (generate_data (demo_world ∅)))) =
    [false; false; false; false; false; false; false; false; true; false; false; true] /\
  checkpoints_written (calls (snd (generate_data (demo_world ∅)))) = checkpoint_files /\
  size (fs (snd (generate_data (demo_world ∅)))) = 15%nat.
Proof. repeat split; vm_compute; reflexivity. Qed.

(** [argmin] takes a NaN for the minimum: the lookup is about distances
    only where none of them is NaN. *)
Example argmin_stops_at_nan :
  argmin [2; PrimFloat.div 0 0; 1]%float = Ok 1%nat /\
  argmin [2; 1; 1]%float = Ok 1%nat /\
  argmin ([] : list float) =
    Raise (ValueError "attempt to get argmin of an empty sequence").
Proof. repeat split; vm_compute; reflexivity. Qed.

(** [np.vstack] refuses the empty list and blocks of different widths. *)
Example vstack_refusals :
  is_ok (vstack []) = false /\
  is_ok (vstack [ {| ncols := 3; rows := [[0; 1; 2]] |};
                  {| ncols := 2; rows := [[0; 1]] |} ]) = false /\
  vstack [ {| ncols := 3; rows := [[0; 1; 2]] |};
           {| ncols := 3; rows := [] |};
           {| ncols := 3; rows := [[2; 3; 0]] |} ] =
    Ok {| ncols := 3; rows := [[0; 1; 2]; [2; 3; 0]] |}.
Proof. repeat split; reflexivity. Qed.

Lemma rerun_with_all_outputs_is_noop_witness :
  fst (generate_data (demo_world complete_files)) = Ok tt /\
  calls (snd (generate_data (demo_world complete_files))) = [] /\
  fs (snd (generate_data (demo_world complete_files))) = complete_files.
Proof.
  apply (rerun_with_all_outputs_is_noop (demo_world complete_files));
    file_present.
Defined.



Lemma tree_stage_reproducible_witness :
  (exists new,
     calls (snd (purkinje_stage LV mesh_only_world)) = calls mesh_only_world ++ new /\
     calls (snd (purkinje_stage LV busy_world)) = calls busy_world ++ new /\
     seeded_before_growth new) /\
  outcome (tree_file LV) (purkinje_stage LV mesh_only_world) =
  outcome (tree_file LV) (purkinje_stage LV busy_world) /\
  calls (snd (purkinje_stage LV mesh_only_world)) =
    [ CallMeshioRead "data/biv_ellipsoid.msh";
      CallRandomSeed 1234;
      CallGenerateFractalTree demo_lv_mesh (tree_parameters LV) ] /\
  calls (snd (purkinje_stage LV busy_world)) =
    [ CallRandomSeed 5;
      CallMeshioRead "data/biv_ellipsoid.msh";
      CallRandomSeed 1234;
      CallGenerateFractalTree demo_lv_mesh (tree_parameters LV) ] /\
  fst (purkinje_stage LV mesh_only_world) = Ok tt /\
  fs (snd (purkinje_stage LV mesh_only_world)) !! lv_file = Some [Byte.x01; Byte.x02] /\
  fs (snd (purkinje_stage LV busy_world)) !! lv_file = Some [Byte.x01; Byte.x02].
Proof.
  destruct (tree_stage_reproducible LV mesh_only_world busy_world)
    as (Hcalls & Hout & Hgrow); [file_missing .. |].
  destruct (Hgrow demo_msh_bytes demo_msh demo_lv_mesh)
    as (H1 & H2 & _ & Hok & Hf1 & Hf2); [vm_compute; reflexivity .. |].
  split; [exact Hcalls |]. split; [exact Hout |]. split; [exact H1 |].
  split; [exact H2 |]. split; [exact Hok |]. split; [exact Hf1 | exact Hf2].
Defined.

Lemma rv_tree_independent_of_lv_stage_witness :
  outcome rv_file
    (bind (purkinje_stage LV) (fun _ => purkinje_stage RV) mesh_only_world) =
  outcome rv_file
    (bind (purkinje_stage LV) (fun _ => purkinje_stage RV) lv_done_world).
Proof.
  apply (rv_tree_independent_of_lv_stage mesh_only_world lv_done_world);
    first [file_missing | file_present].
Defined.



Lemma empty_selection_raises_witness :
  exists e,
    empty_selection_error e /\
    purkinje_stage RV mixed_world =
      (Raise e, logged mixed_world [CallMeshioRead msh_file]) /\
    forall (A : Type) (rest : unit -> M A),
      bind (purkinje_stage RV) rest mixed_world =
      (Raise e, logged mixed_world [CallMeshioRead msh_file]).
Proof.
  apply (empty_selection_raises RV mixed_world mixed_msh_bytes mixed_msh 3
           [[2; 3]; [5]]); try (vm_compute; reflexivity).
  repeat constructor; discriminate.
Defined.

Lemma connectivity_is_tagged_blocks_witness :
  exists content (msh : Msh float) tag physical,
    fs mesh_only_world !! msh_file = Some content /\
    @msh_decode float demo_libs content = Ok msh /\
    endo_tag msh (endo_name LV) = Ok tag /\
    cell_data msh !! "gmsh:physical" = Some physical /\
    rows (connectivity demo_lv_mesh) =
      rows_of_tagged_blocks (cells msh) physical tag /\
    (uniformly_tagged (cells msh) physical ->
     rows (connectivity demo_lv_mesh) = cells_with_tag (cells msh) physical tag).
Proof.
  apply (connectivity_is_tagged_blocks LV mesh_only_world
           (growth_calls LV demo_lv_mesh) demo_lv_mesh (tree_parameters LV)).
  - vm_compute. reflexivity.
  - right. right. left. reflexivity.
Defined.

(** The claim of C4 as it was stated fails on a block with cells of both
    endocardia: the LV stage passes both cells of the block to the growth,
    and only the first of them is tagged as LV endocardium. *)
Lemma connectivity_is_not_the_tagged_cells :
  calls (snd (purkinje_stage LV mixed_world)) =
    [ CallMeshioRead "data/biv_ellipsoid.msh";
      CallRandomSeed 1234;
      CallGenerateFractalTree mixed_lv_mesh (tree_parameters LV) ] /\
  rows (connectivity mixed_lv_mesh) = [[0; 1; 3]; [0; 2; 3]] /\
  cells_with_tag (cells mixed_msh) [[2; 3]; [5]] 2 = [[0; 1; 3]] /\
  rows (connectivity mixed_lv_mesh) <> cells_with_tag (cells mixed_msh) [[2; 3]; [5]] 2.
Proof.
  repeat split; try (vm_compute; reflexivity).
  vm_compute. discriminate.
Qed.

Lemma growth_origin_has_least_computed_distance_witness :
  exists index origin,
    nearest_index (points demo_msh) (seed_point LV) = Ok index /\
    points demo_msh !! index = Some origin /\
    (forall u, In u (points demo_msh) ->
       f_ge (euclidean_distance (seed_point LV) u)
            (euclidean_distance (seed_point LV) origin) = true) /\
    (forall j u, (j < index)%nat -> points demo_msh !! j = Some u ->
       f_ge (euclidean_distance (seed_point LV) origin)
            (euclidean_distance (seed_point LV) u) = false).
Proof.
  apply (proj1 (@growth_origin_has_least_computed_distance
                  float binary64 binary64_order demo_libs)).
  - discriminate.
  - unfold no_nan_distance. repeat constructor; vm_compute; reflexivity.
Defined.

(** The claim of C6 as it was stated fails where rounding hides a
    difference: both vertices are at the computed distance 1.0 from the LV
    seed, the lookup returns the first one, and the second one is strictly
    nearer in exact arithmetic (the squares of the distances are
    [1 + 2^-60] and [1]). *)
Lemma growth_origin_is_not_the_nearest_vertex :
  exists origin other d_origin d_other,
    nearest_index tied_vertices (seed_point LV) = Ok 0%nat /\
    tied_vertices !! 0%nat = Some origin /\
    tied_vertices !! 1%nat = Some other /\
    euclidean_distance (seed_point LV) origin = 1%float /\
    euclidean_distance (seed_point LV) other = 1%float /\
    exact_square_distance (seed_point LV) origin = Some d_origin /\
    exact_square_distance (seed_point LV) other = Some d_other /\
    (d_other < d_origin)%Q /\
    (d_other == 1)%Q.
Proof.
  do 4 eexists. repeat split; try (vm_compute; reflexivity).
Qed.

(** The claim of C7 as it was stated fails on two vertices: swapping them
    moves the nearest one from index 1 to index 0. *)
Lemma nearest_index_follows_the_order :
  Permutation far_then_near near_then_far /\
  nearest_index far_then_near (seed_point LV) = Ok 1%nat /\
  nearest_index near_then_far (seed_point LV) = Ok 0%nat.
Proof.
  split; [apply perm_swap |]. split; vm_compute; reflexivity.
Qed.

Lemma nearest_vertex_under_permutation_witness :
  exists i j u u',
    nearest_index far_then_near (seed_point LV) = Ok i /\
    far_then_near !! i = Some u /\
    nearest_index near_then_far (seed_point LV) = Ok j /\
    near_then_far !! j = Some u' /\
    f_ge (euclidean_distance (seed_point LV) u)
         (euclidean_distance (seed_point LV) u') = true /\
    f_ge (euclidean_distance (seed_point LV) u')
         (euclidean_distance (seed_point LV) u) = true /\
    (forall k x, (k < i)%nat -> far_then_near !! k = Some x ->
       f_ge (euclidean_distance (seed_point LV) u)
            (euclidean_distance (seed_point LV) x) = false) /\
    (forall k x, (k < j)%nat -> near_then_far !! k = Some x ->
       f_ge (euclidean_distance (seed_point LV) u')
            (euclidean_distance (seed_point LV) x) = false) /\
    ((forall x, In x far_then_near ->
        f_ge (euclidean_distance (seed_point LV) u)
             (euclidean_distance (seed_point LV) x) = true -> x = u) ->
     u' = u).
Proof.
  apply (nearest_vertex_under_permutation far_then_near near_then_far (seed_point LV)).
  - apply perm_swap.
  - discriminate.
  - unfold no_nan_distance. repeat constructor; vm_compute; reflexivity.
Defined.

(** The claim of C8 as it was stated fails on the count: the call of the
    mesh stage carries sixteen shape parameters, not eleven. *)
Lemma mesh_call_has_sixteen_shape_parameters :
  exists kwargs,
    calls (snd (mesh_stage (demo_world ∅))) = [CallCreateBivEllipsoid "data" kwargs] /\
    length (shape_parameters kwargs) = 16%nat /\
    length (shape_parameters kwargs) <> 11%nat.
Proof.
  eexists. split; [vm_compute; reflexivity |]. split; [reflexivity | discriminate].
Qed.

Lemma mesh_stage_call_witness :
  calls (snd (mesh_stage (demo_world ∅))) =
    calls (demo_world ∅) ++ [CallCreateBivEllipsoid "data" biv_ellipsoid_kwargs].
Proof.
  apply (proj1 (proj2 (mesh_stage_call (demo_world ∅)))). file_missing.
Defined.

Lemma failed_lv_stage_ends_the_run_witness :
  generate_data broken_mesh_world =
  (Raise (ReadError "not a mesh"),
   logged broken_mesh_world [CallMeshioRead msh_file]).
Proof.
  apply (failed_lv_stage_ends_the_run broken_mesh_world);
    [file_present | file_present | vm_compute; reflexivity].
Defined.

Ltac char_absent :=
  let Hin := fresh "Hin" in
  unfold without_char; cbn; intros Hin;
  repeat (destruct Hin as [Hin | Hin]; [discriminate Hin |]); exact Hin.

Lemma nearest_index_takes_first_nan_witness :
  nearest_index vertices_with_nan (seed_point LV) = Ok 1%nat.
Proof.
  apply (nearest_index_takes_first_nan
           [(5, 0, 0)%float] [(0, 2.25, 0.25)%float]
           (PrimFloat.div 0 0, 0, 0)%float (seed_point LV)).
  - unfold distances_defined. repeat constructor; vm_compute; reflexivity.
  - vm_compute. reflexivity.
Defined.

Lemma tagged_blocks_are_matching_indices_witness :
  exists physical,
    cell_data two_types_msh !! "gmsh:physical" = Some physical /\
    (forall j, In j [0; 1]%nat <->
       exists x, physical !! j = Some x /\ head x = Some 2) /\
    StronglySorted lt [0; 1]%nat.
Proof.
  apply (tagged_blocks_are_matching_indices two_types_msh 2 [0; 1]%nat).
  vm_compute. reflexivity.
Defined.

Lemma selected_blocks_are_in_range_witness :
  exists arrays,
    mapM (fun i => block <- getitem (cells demo_msh) i ;; Ok (data block))%R [0%nat] =
      Ok arrays /\
    stack_blocks demo_msh [0%nat] = vstack arrays.
Proof.
  apply (selected_blocks_are_in_range demo_msh 2 [0%nat] [[2; 2]; [3]; [5]]).
  - vm_compute. reflexivity.
  - simpl. lia.
  - vm_compute. reflexivity.
Defined.

Lemma blocks_of_two_widths_raise_witness :
  exists e,
    stack_blocks two_types_msh [0; 1]%nat = Raise e /\
    (e = IndexError \/
     e = ValueError "all the input array dimensions except for the concatenation axis must match exactly").
Proof.
  apply (blocks_of_two_widths_raise two_types_msh [0; 1]%nat 0 1
           {| cell_type := "line"; data := {| ncols := 2; rows := [[0; 1]] |} |}
           {| cell_type := "triangle"; data := {| ncols := 3; rows := [[0; 1; 3]] |} |}).
  - by left.
  - right. by left.
  - reflexivity.
  - reflexivity.
  - simpl. lia.
Defined.

Lemma missing_tag_raises_key_error_witness :
  purkinje_stage RV (edge_world {[ "data/biv_ellipsoid.msh" := [Byte.x03] ]}) =
  (Raise (KeyError "ENDO_RV"),
   logged (edge_world {[ "data/biv_ellipsoid.msh" := [Byte.x03] ]})
          [CallMeshioRead msh_file]).
Proof.
  apply (missing_tag_raises_key_error RV
           (edge_world {[ "data/biv_ellipsoid.msh" := [Byte.x03] ]})
           [Byte.x03] untagged_msh); vm_compute; reflexivity.
Defined.

Lemma empty_vertex_array_raises_witness :
  purkinje_stage LV (edge_world {[ "data/biv_ellipsoid.msh" := [Byte.x04] ]}) =
  (Raise (ValueError "attempt to get argmin of an empty sequence"),
   logged (edge_world {[ "data/biv_ellipsoid.msh" := [Byte.x04] ]})
          [CallMeshioRead msh_file]).
Proof.
  apply (empty_vertex_array_raises LV
           (edge_world {[ "data/biv_ellipsoid.msh" := [Byte.x04] ]})
           [Byte.x04] empty_msh {| ncols := 3; rows := [[0; 1; 3]; [1; 3; 0]] |});
    vm_compute; reflexivity.
Defined.

Lemma missing_marker_raises_witness :
  exists e,
    (e = IndexError \/
     exists key, e = KeyError key /\ In key marker_names /\
                 delete "EPI" demo_markers !! key = None) /\
    fiber_stage (edge_world ∅) =
      (Raise e, @Build_world float edge_libs ∅ 0 [CallGeometryFromFolder datadir]).
Proof.
  refine (missing_marker_raises (edge_world ∅)
            {| geo_mesh := tt; geo_ffun := tt; geo_markers := delete "EPI" demo_markers |}
            ∅ 0 "EPI" _ _ _ _).
  - vm_compute. reflexivity.
  - reflexivity.
  - right. right. right. by left.
  - vm_compute. reflexivity.
Defined.

Lemma rerun_after_completed_run_witness :
  (is_Some (fs (snd (generate_data (demo_world ∅))) !! fiber_file) /\
   is_Some (fs (snd (generate_data (demo_world ∅))) !! lv_file) /\
   is_Some (fs (snd (generate_data (demo_world ∅))) !! rv_file)) /\
  (is_Some (fs (snd (generate_data (demo_world ∅))) !! msh_file) ->
   generate_data (snd (generate_data (demo_world ∅))) =
   (Ok tt, snd (generate_data (demo_world ∅)))).
Proof.
  apply (rerun_after_completed_run (demo_world ∅)). vm_compute. reflexivity.
Defined.

Lemma run_with_mesh_and_fibers_frame_witness :
  generate_data trees_missing_world =
    bind (purkinje_stage LV) (fun _ => purkinje_stage RV) trees_missing_world /\
  fs (snd (generate_data trees_missing_world)) !! "data/fiber.xdmf" =
    fs trees_missing_world !! "data/fiber.xdmf" /\
  fs (snd (generate_data trees_missing_world)) !! "data/lv_tree_xyz.txt" =
    Some [Byte.x78].
Proof.
  destruct (run_with_mesh_and_fibers_frame trees_missing_world)
    as (Hrun & Hframe & _); [file_present .. |].
  split; [exact Hrun |]. split; [by apply Hframe |]. vm_compute. reflexivity.
Defined.

Lemma stem_of_file_in_directory_witness :
  (let file := path_join "data" ("lv_tree" ++ "." ++ "vtu") in
   path_name file = "lv_tree" ++ "." ++ "vtu" /\
   path_stem file = "lv_tree" /\
   path_join "data" (path_stem file) ++ "." ++ "vtu" = file)%string.
Proof.
  apply (stem_of_file_in_directory "data" "lv_tree" "vtu");
    first [char_absent | discriminate].
Defined.
